(** * TREC inspection report generator: helper.py

    A shallow embedding of [helper.py] (the numbering helpers, the input
    normaliser, the content builder and the render entry point) and the
    properties of its specification that concern them.

    Conventions of the embedding.
    - The JSON records the functions receive (dicts of sections, line
      items and comments) are records whose fields are [option]s: [None]
      is an absent key, so that [d.get(k, default)] is [default] exactly
      when the field is [None]. Each field has the type the code uses it
      at (a string where the code calls [.upper()], a list where it
      iterates); fields that the code only tests for truth and formats
      hold a [scalar].
    - Python's truth test is written out per type ([str_truthy],
      [scalar_truthy]; a flag is a [bool]).
    - Exceptions are the [Raise] results of [result]; reading and writing
      the file system and the layout library are operations of a
      [Runtime], threaded through the [World] it provides.
    - An order key is a JSON number as Python reads it: an integer or a
      float, [NaN] and the infinities included; [number_lt] is Python's
      [<] on them.
    - [sorted] is Python's stable sort, which compares with [<] only. On
      keys that are comparable (no [NaN]) its result is determined by being
      the stable ascending arrangement, computed here by insertion; the same
      insertion leaves alone a list in which no element is less than the one
      before it, as [list.sort] does with a list that is one ascending run.
    - A [Paragraph] parses its text when it is constructed and raises on
      markup it cannot read; whether it does is the runtime's
      [Paragraph_raises]. The constructors of a list of blocks are called in
      the order of the list. *)

From Stdlib Require Import ZArith Lia.
From stdpp Require Import base strings list gmap pretty sorting.
From Equations Require Import Equations.

Set Warnings "-register-all".

Open Scope Z_scope.

(** ** Exceptions and results *)

Inductive exn : Type :=
| ValueError (msg : string)
| IndexError
| OSError (msg : string)
| LayoutError (msg : string).

Inductive result (A : Type) : Type :=
| Ok (a : A)
| Raise (e : exn).
Arguments Ok {A} a.
Arguments Raise {A} e.

#[global] Instance result_ret : MRet result := fun A a => Ok a.
#[global] Instance result_bind : MBind result :=
  fun A B f m => match m with Ok a => f a | Raise e => Raise e end.

(** [l[i]] for a non-negative index. *)
Definition index {A} (l : list A) (i : nat) : result A :=
  match l !! i with
  | Some x => Ok x
  | None => Raise IndexError
  end.

(** ** Python values and their truth *)

(** A value that is only tested for truth and formatted. *)
Inductive scalar : Type :=
| SNone
| SBool (b : bool)
| SInt (z : Z)
| SStr (s : string).

Definition str_truthy (s : string) : bool :=
  match s with
  | EmptyString => false
  | String _ _ => true
  end.

Definition scalar_truthy (v : scalar) : bool :=
  match v with
  | SNone => false
  | SBool b => b
  | SInt z => negb (z =? 0)
  | SStr s => str_truthy s
  end.

(** [str(v)], as an f-string formats it. *)
Definition py_str (v : scalar) : string :=
  match v with
  | SNone => "None"
  | SBool true => "True"
  | SBool false => "False"
  | SInt z => pretty z
  | SStr s => s
  end.

(** The truth of [d.get(k)]: an absent key gives [None], which is false. *)
Definition get_truthy {A} (truthy : A -> bool) (field : option A) : bool :=
  match field with
  | Some v => truthy v
  | None => false
  end.

(** [chr(n)] for a code point below 256. *)
Definition chr (n : Z) : string :=
  String (Ascii.ascii_of_N (Z.to_N n)) "".

(** [s.replace('\n', '<br/>')]. *)
Fixpoint replace_newline (s : string) : string :=
  match s with
  | EmptyString => EmptyString
  | String c s' =>
      if Ascii.eqb c (Ascii.ascii_of_nat 10)
      then "<br/>" +:+ replace_newline s'
      else String c (replace_newline s')
  end.

(** ** Numbering helpers *)

Definition val : list Z :=
  [1000; 900; 500; 400; 100; 90; 50; 40; 10; 9; 5; 4; 1].

Definition syms : list string :=
  ["M"; "CM"; "D"; "CD"; "C"; "XC"; "L"; "XL"; "X"; "IX"; "V"; "IV"; "I"].

(** The inner loop [for _ in range(n): roman_num += syms[i]; num -= val[i]]. *)
Fixpoint roman_for (n : nat) (i : nat) (roman_num : string) (num : Z)
  : result (string * Z) :=
  match n with
  | O => Ok (roman_num, num)
  | S n' =>
      s ← index syms i;
      v ← index val i;
      roman_for n' i (roman_num +:+ s) (num - v)
  end.

(** The loop [while num > 0: ...; i += 1]. Reading [val[i]] past the end of
    the table raises, so the distance of [i] to the end of the table
    decreases at every turn that goes on. The result carries the final
    index next to the numeral. *)
Equations? roman_while (num : Z) (i : nat) (roman_num : string)
  : result (string * nat) by wf (length val - i)%nat lt :=
  roman_while num i roman_num with Z_gt_dec num 0 => {
    | right _ := Ok (roman_num, i);
    | left _ with Equations.Prop.Logic.inspect (val !! i) => {
        | exist _ None Hn := Raise IndexError;
        | exist _ (Some v) Hv
            with roman_for (Z.to_nat (num / v)) i roman_num num => {
            | Raise e := Raise e;
            | Ok (r, n) := roman_while n (S i) r } } }.
Proof.
  apply lookup_lt_Some in Hv. simpl in *. lia.
Qed.

Definition convert_to_roman (num : Z) : result string :=
  match roman_while num 0 "" with
  | Ok (roman_num, _) => Ok roman_num
  | Raise e => Raise e
  end.

Equations? convert_to_letter (num : Z) : string by wf (Z.to_nat num) lt :=
  convert_to_letter num with Z_lt_dec num 0 => {
    | left _ := "";
    | right _ with Z_lt_dec num 26 => {
        | left _ := chr (65 + num);
        | right _ :=
            convert_to_letter (num / 26 - 1) +:+ chr (65 + num mod 26) } }.
Proof.
  assert (num / 26 <= num) by (apply Z.div_le_upper_bound; lia).
  lia.
Qed.

(** ** Numbers

    A finite float is a multiple of 2^-1074; it is held as that multiple, so
    that integers and floats compare exactly, as they do in Python. *)

Inductive float : Type :=
| Finite (scaled : Z)
| Infinity (negative : bool)
| NaN.

Inductive number : Type :=
| Int (z : Z)
| Float (f : float).

Definition float_scale : Z := 2 ^ 1074.

(** Where a number stands among the numbers: below all finite ones, among
    them, or above; [NaN] stands nowhere. *)
Definition number_rank (n : number) : option (Z * Z) :=
  match n with
  | Int z => Some (0, z * float_scale)
  | Float (Finite scaled) => Some (0, scaled)
  | Float (Infinity true) => Some (-1, 0)
  | Float (Infinity false) => Some (1, 0)
  | Float NaN => None
  end.

(** [a < b]: false as soon as one of the two is [NaN]. *)
Definition number_lt (a b : number) : bool :=
  match number_rank a, number_rank b with
  | Some (c1, v1), Some (c2, v2) => (c1 <? c2) || ((c1 =? c2) && (v1 <? v2))
  | _, _ => false
  end.

(** ** Data model *)

Inductive Media : Type :=
| MediaRef (ref : string).

Record Comment : Type := mkComment {
  comment_order : option number;
  comment_label : option string;
  comment_commentNumber : option scalar;
  comment_text : option string;
  comment_content : option string;
  comment_commentText : option string;
  comment_value : option string;
  comment_photos : option (list Media);
  comment_videos : option (list Media);
  comment_type : option string;
  comment_isFlagged : option bool
}.

Record LineItem : Type := mkLineItem {
  item_order : option number;
  item_name : option string;
  item_title : option string;
  item_inspectionStatus : option string;
  item_isDeficient : option bool;
  item_comments : option (list Comment)
}.

Record Section_ : Type := mkSection {
  section_order : option number;
  section_sectionNumber : option scalar;
  section_name : option string;
  section_lineItems : option (list LineItem)
}.

(** [comment.get(field)] for the keys that hold strings. *)
Definition comment_get (comment : Comment) (field : string) : option string :=
  if decide (field = "text") then comment_text comment
  else if decide (field = "content") then comment_content comment
  else if decide (field = "commentText") then comment_commentText comment
  else if decide (field = "value") then comment_value comment
  else if decide (field = "label") then comment_label comment
  else if decide (field = "type") then comment_type comment
  else None.

(** ** Blocks of the document *)

Inductive StyleName : Type :=
| SectionHeader
| LineItemHeader
| CommentLabel
| CommentText
| MediaReference
| SubField.

(** A length in points or in hundredths of an inch. *)
Inductive dim : Type :=
| Pt (n : Z)
| Inch100 (n : Z).

Inductive Flowable : Type :=
| Paragraph (text : string) (style : StyleName)
| Spacer (width height : dim)
| CheckboxMarker (status : string)
| KeepTogether (flowables : list Flowable).

(** The blocks a list of flowables holds once every keep-together group is
    opened. *)
Fixpoint flatten_flowable (f : Flowable) : list Flowable :=
  match f with
  | KeepTogether fs =>
      (fix go (l : list Flowable) : list Flowable :=
         match l with
         | [] => []
         | g :: l' => flatten_flowable g ++ go l'
         end) fs
  | _ => [f]
  end.

Definition flatten_story (story : list Flowable) : list Flowable :=
  concat (map flatten_flowable story).

(** What [TRECReportCanvas] draws. Coordinates are hundredths of an inch. *)
Inductive DrawOp : Type :=
| SetFont (name : string) (size : Z)
| DrawString (x y : Z) (text : string)
| DrawCentredString (x y : Z) (text : string)
| Line (x1 y1 x2 y2 : Z)
| Rect (x y width height : Z).

Definition draw_header (report_id : scalar) : list DrawOp :=
  [ SetFont "Times-Roman" 10;
    DrawString 50 1050 ("Report Identification: " +:+ py_str report_id);
    Line 50 1040 800 1040;
    SetFont "Times-Bold" 10;
    DrawString 50 1025 "I=Inspected";
    DrawString (50 + 175) 1025 "NI=Not Inspected";
    DrawString (50 + 175 * 2) 1025 "NP=Not Present";
    DrawString (50 + 175 * 3) 1025 "D=Deficient";
    SetFont "Times-Bold" 9;
    Rect (50 - 5) (1005 - 5) (800 - 50) 15;
    DrawCentredString (50 + 15) 1005 "I";
    DrawCentredString (50 + 40) 1005 "NI";
    DrawCentredString (50 + 70) 1005 "NP";
    DrawCentredString (50 + 100) 1005 "D" ].

Definition draw_footer (page_number num_pages : nat) : list DrawOp :=
  [ SetFont "Times-Roman" 10;
    DrawCentredString 425 60
      ("Page " +:+ pretty page_number +:+ " of " +:+ pretty num_pages);
    SetFont "Times-Roman" 8;
    DrawString 50 40 "REI 7-6 (8/9/21)";
    DrawCentredString 425 25
      "Promulgated by the Texas Real Estate Commission - (512) 936-3000 - www.trec.texas.gov" ].

(** What [TRECReportCanvas.save] adds to each saved page. *)
Definition page_decoration (report_id : scalar) (page_number num_pages : nat)
  : list DrawOp :=
  draw_header report_id ++ draw_footer page_number num_pages.

(** The document handed to the layout library: [SimpleDocTemplate(...)]
    with the letter page (in points), its margins (hundredths of an inch),
    the story, and the report identifier the canvas maker closes over. *)
Record Document : Type := mkDocument {
  doc_filename : string;
  doc_pagesize : Z * Z;
  doc_topMargin : Z;
  doc_bottomMargin : Z;
  doc_leftMargin : Z;
  doc_rightMargin : Z;
  doc_story : list Flowable;
  doc_report_id : scalar
}.

(** ** The runtime the module runs on

    String methods and library calls whose code is not part of the module. *)
Class Runtime : Type := {
  (** [str.upper] *)
  str_upper : string -> string;
  (** [html.unescape] *)
  html_unescape : string -> string;
  (** [os.path.dirname] *)
  os_path_dirname : string -> string;
  (** the file system *)
  World : Type;
  os_path_exists : string -> World -> bool;
  os_makedirs : string -> World -> result unit * World;
  (** whether the constructor [KeepTogether(flowables)] raises *)
  KeepTogether_raises : list Flowable -> option exn;
  (** [doc.build(story, canvasmaker=...)] *)
  doc_build : Document -> World -> result unit * World;
  (** whether the constructor [Paragraph(text, style)] raises *)
  Paragraph_raises : string -> StyleName -> option exn
}.

(** [sorted(l, key=key)] on numeric keys. An element goes behind the later
    elements that are less than it and in front of the first that is not,
    so equal keys keep the order of the input. *)
Fixpoint insert_by {A} (key : A -> number) (x : A) (l : list A) : list A :=
  match l with
  | [] => [x]
  | y :: l' =>
      if number_lt (key y) (key x) then y :: insert_by key x l'
      else x :: y :: l'
  end.

Definition sorted {A} (l : list A) (key : A -> number) : list A :=
  foldr (insert_by key) [] l.

(** [x.get('order', 0)] *)
Definition get_order (order : option number) : number :=
  default (Int 0) order.

Section Helper.
Context `{RT : Runtime}.

(** ** Input normaliser *)

Definition escape_html_entities (text : string) : string :=
  if negb (str_truthy text) then ""
  else html_unescape text.

(** The loop of [get_comment_text] over the aliased field names. *)
Fixpoint get_comment_text_loop (comment : Comment) (fields : list string)
  : string :=
  match fields with
  | [] => ""
  | field :: fields' =>
      match comment_get comment field with
      | Some v =>
          if str_truthy v then escape_html_entities v
          else get_comment_text_loop comment fields'
      | None => get_comment_text_loop comment fields'
      end
  end.

Definition get_comment_text (comment : Comment) : string :=
  get_comment_text_loop comment ["text"; "content"; "commentText"; "value"].

(** The first [if] of [get_inspection_status]: [Some status] when it
    returns, [None] when control falls through. *)
Definition explicit_status (line_item : LineItem) : option string :=
  match item_inspectionStatus line_item with
  | Some v =>
      if str_truthy v then
        let status := str_upper v in
        if decide (status ∈ ["I"; "NI"; "NP"; "D"]) then Some status else None
      else None
  | None => None
  end.

(** The loop over the comments: [true] when it returns ['D']. *)
Fixpoint deficient_comment (comments : list Comment) : bool :=
  match comments with
  | [] => false
  | comment :: comments' =>
      if bool_decide (comment_get comment "type" = Some "deficient")
         || get_truthy id (comment_isFlagged comment)
      then true
      else deficient_comment comments'
  end.

Definition get_inspection_status (line_item : LineItem) : string :=
  match explicit_status line_item with
  | Some status => status
  | None =>
      if get_truthy id (item_isDeficient line_item) then "D"
      else
        let comments := default [] (item_comments line_item) in
        if deficient_comment comments then "D"
        else
          match comments with
          | _ :: _ => "I"
          | [] => ""
          end
  end.

(** ** Content builder *)

(** The media reference of a comment, when it has one. *)
Definition media_reference (comment : Comment) : option Flowable :=
  let photos := default [] (comment_photos comment) in
  let videos := default [] (comment_videos comment) in
  let total_media := (length photos + length videos)%nat in
  if (0 <? total_media)%nat then
    let media_text :=
      "See attached media (" +:+ pretty total_media +:+ " item"
      +:+ (if (1 <? total_media)%nat then "s" else "") +:+ ")" in
    Some (Paragraph media_text MediaReference)
  else None.

(** [l.append(x)] when there is an [x]. *)
Definition append_if (l : list Flowable) (x : option Flowable)
  : list Flowable :=
  match x with
  | Some f => l ++ [f]
  | None => l
  end.

Definition comment_label_block (comment : Comment) : option Flowable :=
  let label := default "" (comment_label comment) in
  let comment_number := default (SStr "") (comment_commentNumber comment) in
  if str_truthy label then
    let label_text :=
      if scalar_truthy comment_number
      then py_str comment_number +:+ ". " +:+ label
      else label in
    Some (Paragraph label_text CommentLabel)
  else None.

Definition comment_text_block (comment : Comment) : option Flowable :=
  let text := get_comment_text comment in
  if str_truthy text
  then Some (Paragraph (replace_newline text) CommentText)
  else None.

(** The body of [for comment in sorted_comments]. *)
Definition comment_body (comment : Comment) (line_item_content : list Flowable)
  : list Flowable :=
  let line_item_content :=
    append_if line_item_content (comment_label_block comment) in
  let line_item_content :=
    append_if line_item_content (comment_text_block comment) in
  append_if line_item_content (media_reference comment).

Fixpoint comments_loop (sorted_comments : list Comment)
  (line_item_content : list Flowable) : list Flowable :=
  match sorted_comments with
  | [] => line_item_content
  | comment :: rest =>
      comments_loop rest (comment_body comment line_item_content)
  end.

(** The list [line_item_content] of one line item, spacer included. *)
Definition build_line_item_content (item_idx : nat) (line_item : LineItem)
  : list Flowable :=
  let item_letter := convert_to_letter (Z.of_nat item_idx) in
  let name :=
    default (default "" (item_title line_item)) (item_name line_item) in
  let line_item_header := item_letter +:+ ". " +:+ name in
  let status := get_inspection_status line_item in
  let line_item_content :=
    [CheckboxMarker status; Paragraph line_item_header LineItemHeader] in
  let comments := default [] (item_comments line_item) in
  let sorted_comments :=
    sorted comments (fun x => get_order (comment_order x)) in
  let line_item_content := comments_loop sorted_comments line_item_content in
  line_item_content ++ [Spacer (Pt 1) (Inch100 10)].

(** [try: story.append(KeepTogether(content)) except: story.extend(content)] *)
Definition keep_together_or_extend (story line_item_content : list Flowable)
  : list Flowable :=
  match KeepTogether_raises line_item_content with
  | None => story ++ [KeepTogether line_item_content]
  | Some _ => story ++ line_item_content
  end.

(** The constructor calls that build a list of blocks, in the order of the
    list: the first [Paragraph(...)] that raises ends them. *)
Fixpoint constructed (blocks : list Flowable) : result unit :=
  match blocks with
  | [] => Ok ()
  | Paragraph text style :: blocks' =>
      match Paragraph_raises text style with
      | Some e => Raise e
      | None => constructed blocks'
      end
  | _ :: blocks' => constructed blocks'
  end.

Fixpoint line_items_loop (item_idx : nat) (sorted_line_items : list LineItem)
  (story : list Flowable) : result (list Flowable) :=
  match sorted_line_items with
  | [] => Ok story
  | line_item :: rest =>
      let line_item_content := build_line_item_content item_idx line_item in
      _ ← constructed line_item_content;
      line_items_loop (S item_idx) rest
        (keep_together_or_extend story line_item_content)
  end.

(** The section number: the explicit label when it is true, else the Roman
    numeral of the position. *)
Definition section_number (section_idx : nat) (section : Section_)
  : result string :=
  match section_sectionNumber section with
  | Some v =>
      if scalar_truthy v then Ok (py_str v)
      else convert_to_roman (Z.of_nat section_idx + 1)
  | None => convert_to_roman (Z.of_nat section_idx + 1)
  end.

Definition section_header (section_num : string) (section : Section_)
  : Flowable :=
  let name := str_upper (default "" (section_name section)) in
  Paragraph (section_num +:+ ". " +:+ name) SectionHeader.

Fixpoint sections_loop (section_idx : nat) (sorted_sections : list Section_)
  (story : list Flowable) : result (list Flowable) :=
  match sorted_sections with
  | [] => Ok story
  | section :: rest =>
      section_num ← section_number section_idx section;
      _ ← constructed [section_header section_num section];
      let story := story ++ [section_header section_num section] in
      let line_items := default [] (section_lineItems section) in
      let sorted_line_items :=
        sorted line_items (fun x => get_order (item_order x)) in
      story ← line_items_loop 0 sorted_line_items story;
      let story := story ++ [Spacer (Pt 1) (Inch100 20)] in
      sections_loop (S section_idx) rest story
  end.

(** The story [generate_trec_pdf] hands to [doc.build]. *)
Definition build_story (sections : list Section_) : result (list Flowable) :=
  let sorted_sections :=
    sorted sections (fun x => get_order (section_order x)) in
  sections_loop 0 sorted_sections [].

(** [metadata.get('reportId', metadata.get('report_id', 'N/A'))] *)
Definition get_report_id (metadata : gmap string scalar) : scalar :=
  default (default (SStr "N/A") (metadata !! "report_id"))
          (metadata !! "reportId").

(** ** Render entry point *)

Definition generate_trec_pdf (sections : list Section_)
  (metadata : gmap string scalar) (output_path : string) (w : World)
  : result string * World :=
  match sections with
  | [] => (Raise (ValueError "Sections list cannot be empty"), w)
  | _ :: _ =>
      let output_dir := os_path_dirname output_path in
      let '(made, w) :=
        if str_truthy output_dir && negb (os_path_exists output_dir w)
        then os_makedirs output_dir w
        else (Ok (), w) in
      match made with
      | Raise e => (Raise e, w)
      | Ok _ =>
          let report_id := get_report_id metadata in
          match build_story sections with
          | Raise e => (Raise e, w)
          | Ok story =>
              let doc :=
                {| doc_filename := output_path;
                   doc_pagesize := (612, 792);
                   doc_topMargin := 125;
                   doc_bottomMargin := 75;
                   doc_leftMargin := 175;
                   doc_rightMargin := 75;
                   doc_story := story;
                   doc_report_id := report_id |} in
              let '(built, w) := doc_build doc w in
              match built with
              | Raise e => (Raise e, w)
              | Ok _ => (Ok output_path, w)
              end
          end
      end
  end.

(** The root object of [generate_trec_pdf_from_json]: its [sections] and
    the scalar fields next to them. *)
Record JsonData : Type := mkJsonData {
  json_sections : option (list Section_);
  json_fields : gmap string scalar
}.

Definition generate_trec_pdf_from_json (json_data : JsonData)
  (output_path : string) (metadata : option (gmap string scalar)) (w : World)
  : result string * World :=
  let sections := default [] (json_sections json_data) in
  let fields := json_fields json_data in
  let metadata :=
    match metadata with
    | Some m => m
    | None =>
        <["reportId" := get_report_id fields]>
        (<["inspectionDate" := default (SStr "") (fields !! "inspectionDate")]>
        (<["propertyAddress" := default (SStr "") (fields !! "propertyAddress")]>
        (<["inspectorName" := default (SStr "") (fields !! "inspectorName")]>
        (<["inspectorLicense" := default (SStr "") (fields !! "inspectorLicense")]>
         ∅))))
    end in
  generate_trec_pdf sections metadata output_path w.

End Helper.

(** ** The layout the specification describes

    The content builder in the words of the specification: a heading per
    section in sorted order, under it one group per line item in sorted
    order, in it the blocks of each sorted comment and a small spacer, and a
    larger spacer after the line items. The loops above are compared with
    these. *)

(** The letters of the item labels. *)
Definition letter (n : Z) : string :=
  String.substring (Z.to_nat n) 1 "ABCDEFGHIJKLMNOPQRSTUVWXYZ".

(** [s] repeated [n] times. *)
Fixpoint repeat_str (s : string) (n : nat) : string :=
  match n with
  | O => ""
  | S n' => s +:+ repeat_str s n'
  end.

(** The subtractive Roman numeral: for each value of the table, largest
    first, as many copies of its symbol as fit, then the rest. *)
Fixpoint roman_greedy (table : list (Z * string)) (num : Z) : string :=
  match table with
  | [] => ""
  | (v, s) :: table' =>
      repeat_str s (Z.to_nat (num / v)) +:+ roman_greedy table' (num mod v)
  end.

Definition roman_numeral (num : Z) : string :=
  roman_greedy (zip val syms) num.

(** The first non-empty value of a list of fields. *)
Fixpoint first_nonempty (fields : list (option string)) : option string :=
  match fields with
  | [] => None
  | Some v :: fields' =>
      if str_truthy v then Some v else first_nonempty fields'
  | None :: fields' => first_nonempty fields'
  end.

(** A number that compares with every number that does. *)
Definition comparable (n : number) : Prop := n <> Float NaN.

(** Two numbers neither of which is less than the other: the same number,
    as an integer or as a float. *)
Definition same_key (a b : number) : Prop :=
  number_lt a b = false /\ number_lt b a = false.

(** A list is the stable ascending arrangement of another: the same
    elements, no element less than an earlier one, and the elements of each
    (comparable) key in the order they had. *)
Definition stable_sort_of {A} (key : A -> number) (l l' : list A) : Prop :=
  l' ≡ₚ l
  ∧ StronglySorted (fun a b => number_lt (key b) (key a) = false) l'
  ∧ ∀ k : number,
      comparable k ->
      filter (fun x => same_key (key x) k) l'
      = filter (fun x => same_key (key x) k) l.

(** The statuses the form knows. *)
Definition valid_status (s : string) : Prop := s ∈ ["I"; "NI"; "NP"; "D"].

(** A comment tagged as deficient or flagged. *)
Definition deficient_or_flagged (comment : Comment) : Prop :=
  comment_type comment = Some "deficient"
  \/ comment_isFlagged comment = Some true.

(** A block that is not a group. *)
Definition is_block (f : Flowable) : Prop :=
  match f with
  | KeepTogether _ => False
  | _ => True
  end.

Section Layout.
Context `{RT : Runtime}.

(** The line item has no explicit status that counts: none, an empty one,
    or one that is not a status of the form once in upper case. *)
Definition no_valid_status (line_item : LineItem) : Prop :=
  forall v : string,
    item_inspectionStatus line_item = Some v ->
    v = "" \/ ~ valid_status (str_upper v).

Definition comment_blocks (comment : Comment) : list Flowable :=
  option_list (comment_label_block comment)
  ++ option_list (comment_text_block comment)
  ++ option_list (media_reference comment).

Definition line_item_blocks (item_idx : nat) (line_item : LineItem)
  : list Flowable :=
  let name :=
    default (default "" (item_title line_item)) (item_name line_item) in
  let comments := default [] (item_comments line_item) in
  [ CheckboxMarker (get_inspection_status line_item);
    Paragraph (convert_to_letter (Z.of_nat item_idx) +:+ ". " +:+ name)
              LineItemHeader ]
  ++ concat (map comment_blocks
               (sorted comments (fun x => get_order (comment_order x))))
  ++ [Spacer (Pt 1) (Inch100 10)].

(** A line item's blocks as one keep-together group, or one by one when the
    group cannot be made. *)
Definition group_or_blocks (blocks : list Flowable) : list Flowable :=
  match KeepTogether_raises blocks with
  | None => [KeepTogether blocks]
  | Some _ => blocks
  end.

Definition section_label (section_idx : nat) (section : Section_) : string :=
  match section_sectionNumber section with
  | Some v =>
      if scalar_truthy v then py_str v
      else roman_numeral (Z.of_nat section_idx + 1)
  | None => roman_numeral (Z.of_nat section_idx + 1)
  end.

Definition section_blocks (group : list Flowable -> list Flowable)
  (section_idx : nat) (section : Section_) : list Flowable :=
  let line_items := default [] (section_lineItems section) in
  [section_header (section_label section_idx section) section]
  ++ concat (imap (fun item_idx line_item =>
                     group (line_item_blocks item_idx line_item))
               (sorted line_items (fun x => get_order (item_order x))))
  ++ [Spacer (Pt 1) (Inch100 20)].

Definition story_layout (group : list Flowable -> list Flowable)
  (sections : list Section_) : list Flowable :=
  concat (imap (section_blocks group)
            (sorted sections (fun x => get_order (section_order x)))).

End Layout.

(** ** A runtime to run the functions on

    ASCII upper-casing, a decoder of the five predefined entities, a
    [dirname] that cuts at the last slash, and a file system held in two
    lists. [KeepTogether(...)] never raises; [Paragraph(...)] raises on a
    text that holds the fragment [refused], when one is given. *)

Definition ascii_upper (c : Ascii.ascii) : Ascii.ascii :=
  let n := Ascii.nat_of_ascii c in
  if ((97 <=? n) && (n <=? 122))%nat then Ascii.ascii_of_nat (n - 32) else c.

Fixpoint ascii_str_upper (s : string) : string :=
  match s with
  | EmptyString => EmptyString
  | String c s' => String (ascii_upper c) (ascii_str_upper s')
  end.

Definition entities : list (string * string) :=
  [("&amp;", "&"); ("&lt;", "<"); ("&gt;", ">"); ("&quot;", String (Ascii.ascii_of_nat 34) ""); ("&#39;", "'")].

Definition match_entity (s : string) : option (string * nat) :=
  (fun '(name, c) => (c, String.length name)) <$>
  List.find (fun '(name, _) => String.prefix name s) entities.

Fixpoint unescape_entities (skip : nat) (s : string) : string :=
  match s with
  | EmptyString => EmptyString
  | String c s' =>
      match skip with
      | S skip' => unescape_entities skip' s'
      | O =>
          match match_entity s with
          | Some (r, n) => r +:+ unescape_entities (n - 1) s'
          | None => String c (unescape_entities 0 s')
          end
      end
  end.

Fixpoint last_slash (s : string) (pos : nat) (found : nat) : nat :=
  match s with
  | EmptyString => found
  | String c s' =>
      last_slash s' (S pos)
        (if Ascii.eqb c (Ascii.ascii_of_nat 47) then S pos else found)
  end.

Definition cut_dirname (p : string) : string :=
  String.substring 0 (last_slash p 0 0 - 1) p.

Record Files : Type := mkFiles {
  files_dirs : list string;
  files_docs : list (string * Document)
}.

(** Whether [fragment] occurs in [text]. *)
Fixpoint contains (fragment text : string) : bool :=
  String.prefix fragment text
  || match text with
     | EmptyString => false
     | String _ text' => contains fragment text'
     end.

Definition simple_runtime (refused : option string) : Runtime :=
  {| str_upper := ascii_str_upper;
     html_unescape := unescape_entities 0;
     os_path_dirname := cut_dirname;
     World := Files;
     os_path_exists := fun p w => bool_decide (p ∈ files_dirs w);
     os_makedirs := fun p w =>
       (Ok (), {| files_dirs := p :: files_dirs w;
                  files_docs := files_docs w |});
     KeepTogether_raises := fun _ => None;
     doc_build := fun doc w =>
       (Ok (), {| files_dirs := files_dirs w;
                  files_docs := (doc_filename doc, doc) :: files_docs w |});
     Paragraph_raises := fun text _ =>
       match refused with
       | Some fragment =>
           if contains fragment text
           then Some (ValueError "paragraph text: parse error") else None
       | None => None
       end |}.

Definition no_files : Files := {| files_dirs := []; files_docs := [] |}.

(** ** The checkbox marker, the canvas and the wrapper's summary pages *)

(** [CheckboxMarker.draw]: for the [i]-th status a square, and a cross in it
    when it is the status of the marker. Coordinates are points, relative to
    the marker; an inch is 72 points, so [-1.25 * inch] is -90 and
    [0.25 * inch] is 18. *)
Definition checkbox_statuses : list string := ["I"; "NI"; "NP"; "D"].

Section Checkbox.
Context `{RT : Runtime}.

Definition checkbox_selected (status stat : string) : bool :=
  str_truthy status && bool_decide (stat = str_upper status).

Definition checkbox_box (status : string) (i : nat) (stat : string)
  : list DrawOp :=
  let checkbox_size := 10 in
  let checkbox_x := -90 in
  let spacing := 18 in
  let y_base := 3 in
  let x := checkbox_x + Z.of_nat i * spacing in
  Rect x y_base checkbox_size checkbox_size
  :: (if checkbox_selected status stat
      then [Line x y_base (x + checkbox_size) (y_base + checkbox_size);
            Line (x + checkbox_size) y_base x (y_base + checkbox_size)]
      else []).

Definition CheckboxMarker_draw (status : string) : list DrawOp :=
  concat (imap (checkbox_box status) checkbox_statuses).

End Checkbox.

(** The squares and the strokes of a drawing. *)
Definition is_rect (op : DrawOp) : bool :=
  match op with
  | Rect _ _ _ _ => true
  | _ => false
  end.

Definition is_line (op : DrawOp) : bool :=
  match op with
  | Line _ _ _ _ => true
  | _ => false
  end.

(** What [TRECReportCanvas] needs of the canvas it extends: the attributes
    of the object ([self.__dict__] but for [_saved_page_states], which every
    copy of the attributes shares), among them [_pageNumber] and
    [report_id]; the document the pages go to, which the copies share too;
    [_startPage], the drawing methods, and the [showPage] and [save] of the
    base class. *)
Class BaseCanvas : Type := {
  CanvasAttrs : Type;
  PdfDoc : Type;
  attrs_pageNumber : CanvasAttrs -> nat;
  attrs_report_id : CanvasAttrs -> scalar;
  Canvas_startPage : CanvasAttrs -> CanvasAttrs;
  Canvas_draw : DrawOp -> CanvasAttrs -> CanvasAttrs;
  Canvas_showPage : CanvasAttrs -> PdfDoc -> CanvasAttrs * PdfDoc;
  Canvas_save : CanvasAttrs -> PdfDoc -> PdfDoc
}.

Section ReportCanvas.
Context `{BC : BaseCanvas}.

Record TRECReportCanvas : Type := mkCanvas {
  canvas_attrs : CanvasAttrs;
  canvas_saved_page_states : list CanvasAttrs
}.

(** [showPage]: keep a copy of the attributes, start the next page. *)
Definition showPage (c : TRECReportCanvas) : TRECReportCanvas :=
  {| canvas_attrs := Canvas_startPage (canvas_attrs c);
     canvas_saved_page_states :=
       canvas_saved_page_states c ++ [canvas_attrs c] |}.

Definition draw_all (ops : list DrawOp) (attrs : CanvasAttrs) : CanvasAttrs :=
  foldl (fun a op => Canvas_draw op a) attrs ops.

(** The body of the loop of [save] for one saved state. *)
Definition save_page (num_pages : nat) (acc : CanvasAttrs * PdfDoc)
  (state : CanvasAttrs) : CanvasAttrs * PdfDoc :=
  let attrs := state in
  let attrs := draw_all (draw_header (attrs_report_id attrs)) attrs in
  let attrs :=
    draw_all (draw_footer (attrs_pageNumber attrs) num_pages) attrs in
  Canvas_showPage attrs (snd acc).

Definition save (c : TRECReportCanvas) (doc : PdfDoc) : PdfDoc :=
  let num_pages := length (canvas_saved_page_states c) in
  let '(attrs, doc) :=
    foldl (save_page num_pages) (canvas_attrs c, doc)
      (canvas_saved_page_states c) in
  Canvas_save attrs doc.

(** The saved pages shown one after the other, each with the header and
    the footer "Page n of total" drawn over it, [n] counting from [first]. *)
Fixpoint show_decorated (first total : nat) (saved : list CanvasAttrs)
  (acc : CanvasAttrs * PdfDoc) : CanvasAttrs * PdfDoc :=
  match saved with
  | [] => acc
  | state :: saved' =>
      show_decorated (S first) total saved'
        (Canvas_showPage
           (draw_all (page_decoration (attrs_report_id state) first total)
              state)
           (snd acc))
  end.

(** What the layout does to a canvas between its creation and [save]: it
    calls methods of the base class, and [showPage]. *)
Inductive canvas_call : Type :=
| CallBase (method : CanvasAttrs -> CanvasAttrs)
| CallShowPage.

Definition canvas_step (c : TRECReportCanvas) (call : canvas_call)
  : TRECReportCanvas :=
  match call with
  | CallBase method =>
      {| canvas_attrs := method (canvas_attrs c);
         canvas_saved_page_states := canvas_saved_page_states c |}
  | CallShowPage => showPage c
  end.

Definition canvas_run (calls : list canvas_call) (c : TRECReportCanvas)
  : TRECReportCanvas :=
  foldl canvas_step c calls.

Definition is_showPage (call : canvas_call) : bool :=
  match call with
  | CallShowPage => true
  | CallBase _ => false
  end.

(** A call that leaves the page number as it is. *)
Definition keeps_pageNumber (call : canvas_call) : Prop :=
  match call with
  | CallBase method =>
      forall a, attrs_pageNumber (method a) = attrs_pageNumber a
  | CallShowPage => True
  end.

(** The pages saved so far are numbered from [first] on, and the current
    page has the next number. *)
Definition pages_numbered (first : nat) (c : TRECReportCanvas) : Prop :=
  attrs_pageNumber <$> canvas_saved_page_states c
  = seq first (length (canvas_saved_page_states c))
  /\ attrs_pageNumber (canvas_attrs c)
     = (first + length (canvas_saved_page_states c))%nat.

(** [TRECReportCanvas(...)]: the attributes the base class sets up, no page
    saved. *)
Definition new_canvas (attrs : CanvasAttrs) : TRECReportCanvas :=
  {| canvas_attrs := attrs; canvas_saved_page_states := [] |}.

End ReportCanvas.

(** A canvas that keeps what is drawn: the attributes are the page number,
    the report identifier and the drawing of the current page; the document
    is the list of the pages shown. *)
Record SimpleAttrs : Type := mkSimpleAttrs {
  simple_pageNumber : nat;
  simple_report_id : scalar;
  simple_code : list DrawOp
}.

Definition simple_canvas : BaseCanvas :=
  {| CanvasAttrs := SimpleAttrs;
     PdfDoc := list (list DrawOp);
     attrs_pageNumber := simple_pageNumber;
     attrs_report_id := simple_report_id;
     Canvas_startPage := fun a =>
       {| simple_pageNumber := S (simple_pageNumber a);
          simple_report_id := simple_report_id a;
          simple_code := [] |};
     Canvas_draw := fun op a =>
       {| simple_pageNumber := simple_pageNumber a;
          simple_report_id := simple_report_id a;
          simple_code := simple_code a ++ [op] |};
     Canvas_showPage := fun a doc =>
       ({| simple_pageNumber := S (simple_pageNumber a);
           simple_report_id := simple_report_id a;
           simple_code := [] |}, doc ++ [simple_code a]);
     Canvas_save := fun _ doc => doc |}.

(** ** Reading labels back *)

(** The value of a Roman digit, 0 for any other character. *)
Definition roman_digits : list (string * Z) :=
  [("I", 1); ("V", 5); ("X", 10); ("L", 50); ("C", 100); ("D", 500);
   ("M", 1000)].

Definition roman_digit (c : Ascii.ascii) : Z :=
  default 0
    (snd <$> List.find (fun p => String.eqb (fst p) (String c "")) roman_digits).

(** The subtractive reading of a numeral: a digit in front of a larger one
    is subtracted, any other digit is added. *)
Fixpoint roman_value (s : string) : Z :=
  match s with
  | EmptyString => 0
  | String c s' =>
      match s' with
      | EmptyString => roman_digit c
      | String c' _ =>
          if roman_digit c <? roman_digit c'
          then roman_value s' - roman_digit c
          else roman_value s' + roman_digit c
      end
  end.

(** A label of capital letters read as a number in bijective base 26, with
    A as 1, and the index it labels. *)
Fixpoint letters_value (acc : Z) (s : string) : Z :=
  match s with
  | EmptyString => acc
  | String c s' =>
      letters_value (acc * 26 + (Z.of_N (Ascii.N_of_ascii c) - 64)) s'
  end.

Definition label_index (s : string) : Z := letters_value 0 s - 1.

Fixpoint all_capitals (s : string) : Prop :=
  match s with
  | EmptyString => True
  | String c s' => 65 <= Z.of_N (Ascii.N_of_ascii c) <= 90 /\ all_capitals s'
  end.

(** Whether a string holds a line feed. *)
Fixpoint has_newline (s : string) : bool :=
  match s with
  | EmptyString => false
  | String c s' => Ascii.eqb c (Ascii.ascii_of_nat 10) || has_newline s'
  end.

(** Kinds of blocks, to count them. *)
Definition is_section_heading (f : Flowable) : bool :=
  match f with
  | Paragraph _ SectionHeader => true
  | _ => false
  end.

Definition is_line_item_heading (f : Flowable) : bool :=
  match f with
  | Paragraph _ LineItemHeader => true
  | _ => false
  end.

Definition is_checkbox_marker (f : Flowable) : bool :=
  match f with
  | CheckboxMarker _ => true
  | _ => false
  end.

Definition is_comment_block (f : Flowable) : bool :=
  match f with
  | Paragraph _ CommentLabel | Paragraph _ CommentText
  | Paragraph _ MediaReference => true
  | _ => false
  end.

Definition is_media_reference (f : Flowable) : bool :=
  match f with
  | Paragraph _ MediaReference => true
  | _ => false
  end.

(** [len(photos) + len(videos)] of a comment. *)
Definition media_count (comment : Comment) : nat :=
  (length (default [] (comment_photos comment))
   + length (default [] (comment_videos comment)))%nat.

(** The line items of a list of sections. *)
Definition count_line_items (sections : list Section_) : nat :=
  sum_list_with (fun s => length (default [] (section_lineItems s))) sections.

(** ** The document of a report *)

Section ReportDocument.
Context `{RT : Runtime}.




End ReportDocument.

(** ** server.py: the pages of the placeholder text *)

Inductive rendered : Type :=
| Rendered (pages : list (list DrawOp))
| NotImplementedError (msg : string).

(** The loop of [_render_pdf_text] over the lines: [y] is the height of the
    next line, [page] what is drawn on the current page, [pages] the pages
    shown; the [showPage] after the loop shows the current page. Heights
    are points; [line[:90]] keeps the first 90 characters. *)
Fixpoint render_lines (lines : list string) (y : Z) (page : list DrawOp)
  (pages : list (list DrawOp)) : list (list DrawOp) :=
  match lines with
  | [] => pages ++ [page]
  | line :: lines' =>
      let page := page ++ [DrawString 40 y (String.substring 0 90 line)] in
      let y := y - 16 in
      if y <? 40
      then render_lines lines' 800 [] (pages ++ [page])
      else render_lines lines' y page pages
  end.

Definition render_pdf_text (REPORTLAB_AVAILABLE : bool)
  (splitlines : string -> list string) (text : string) : rendered :=
  if negb REPORTLAB_AVAILABLE then
    NotImplementedError
      "reportlab is required for PDF generation; please install it or replace this helper"
  else
    Rendered (render_lines (splitlines text) 800 [SetFont "Helvetica" 12] []).

(** The text lines drawn on a page, with their heights. *)
Definition page_lines (page : list DrawOp) : list (Z * string) :=
  omap (fun op =>
          match op with
          | DrawString _ y text => Some (y, text)
          | _ => None
          end) page.

(** A line of a page stands at one of the 48 heights 800, 784, ..., 48. *)
Definition line_height_ok (l : Z * string) : Prop :=
  exists k : nat, (k < 48)%nat /\ fst l = 800 - 16 * Z.of_nat k.

(** * Properties *)

(** ** Strings *)

Lemma string_app_nil_l (s : string) : "" +:+ s = s.
Proof. reflexivity. Qed.

Lemma string_app_cons (c : Ascii.ascii) (s1 s2 : string) :
  String c s1 +:+ s2 = String c (s1 +:+ s2).
Proof. reflexivity. Qed.

Lemma string_app_nil_r (s : string) : s +:+ "" = s.
Proof.
  induction s as [|c s IH]; [reflexivity|].
  rewrite string_app_cons. by rewrite IH.
Qed.

Lemma string_app_assoc (s1 s2 s3 : string) :
  (s1 +:+ s2) +:+ s3 = s1 +:+ (s2 +:+ s3).
Proof.
  induction s1 as [|c s1 IH]; [reflexivity|].
  rewrite !string_app_cons. by rewrite IH.
Qed.

Lemma string_length_app (s1 s2 : string) :
  String.length (s1 +:+ s2) = (String.length s1 + String.length s2)%nat.
Proof.
  induction s1 as [|c s1 IH]; [reflexivity|].
  rewrite string_app_cons. simpl. by rewrite IH.
Qed.

(** ** Roman numerals *)

Lemma val_positive (i : nat) (v : Z) : val !! i = Some v -> 0 < v.
Proof.
  intros Hv. assert (Hall : Forall (fun v => 0 < v) val).
  { unfold val. repeat constructor. }
  rewrite Forall_lookup in Hall. exact (Hall i v Hv).
Qed.

Lemma val_last (v : Z) : val !! 12%nat = Some v -> v = 1.
Proof. simpl. congruence. Qed.

Lemma syms_defined (i : nat) (v : Z) :
  val !! i = Some v -> exists s, syms !! i = Some s.
Proof.
  intros Hv. apply lookup_lt_Some in Hv.
  apply lookup_lt_is_Some_2. exact Hv.
Qed.

(** The inner loop appends [n] copies of the symbol and subtracts [n]
    times the value. *)
Lemma roman_for_ok (n i : nat) (s : string) (v : Z) (roman_num : string)
  (num : Z) :
  syms !! i = Some s -> val !! i = Some v ->
  roman_for n i roman_num num
  = Ok (roman_num +:+ repeat_str s n, num - Z.of_nat n * v).
Proof.
  intros Hs Hv. revert roman_num num.
  induction n as [|n IH]; intros roman_num num.
  - cbn [roman_for repeat_str]. rewrite string_app_nil_r. do 2 f_equal. lia.
  - cbn [roman_for]. unfold index. rewrite Hs, Hv. cbn [mbind result_bind].
    rewrite IH. cbn [repeat_str]. rewrite string_app_assoc.
    do 2 f_equal. lia.
Qed.

Lemma roman_greedy_zero (table : list (Z * string)) : roman_greedy table 0 = "".
Proof.
  induction table as [|[v s] table IH]; [reflexivity|].
  cbn [roman_greedy]. rewrite Zdiv_0_l, Zmod_0_l. cbn [Z.to_nat repeat_str].
  rewrite IH. reflexivity.
Qed.

(** From index [i] on, the loop appends the subtractive numeral of what is
    left, and stops at an index of the table or right behind it. *)
Lemma roman_while_greedy (num : Z) (i : nat) (roman_num : string) :
  0 <= num -> (i <= 13)%nat -> (i = 13%nat -> num = 0) ->
  exists j : nat,
    (i <= j <= 13)%nat /\
    roman_while num i roman_num
    = Ok (roman_num +:+ roman_greedy (drop i (zip val syms)) num, j).
Proof.
  funelim (roman_while num i roman_num); intros Hnum Hi Hend.
  - assert (num = 0) as -> by lia.
    exists i. split; [lia|].
    by rewrite roman_greedy_zero, string_app_nil_r.
  - exfalso. pose proof (lookup_ge_None_1 _ _ Hn) as Hge. simpl in Hge. lia.
  - clear H0 Heqcall. destruct (syms_defined _ _ Hv) as [s Hs].
    rewrite (roman_for_ok _ _ _ _ _ _ Hs Hv) in Heq.
    injection Heq as <- <-.
    pose proof (val_positive _ _ Hv) as Hpos.
    assert (Hlt : (i < 13)%nat) by (apply lookup_lt_Some in Hv; exact Hv).
    assert (Hmod : num - Z.of_nat (Z.to_nat (num / v)) * v = num mod v).
    { rewrite Z2Nat.id by (apply Z.div_pos; lia). rewrite Z.mod_eq by lia. lia. }
    rewrite Hmod in H |- *.
    destruct H as (j & Hj & ->).
    + apply Z.mod_pos_bound. lia.
    + lia.
    + intros Hi13. assert (i = 12%nat) as -> by lia.
      apply val_last in Hv as ->. apply Z.mod_1_r.
    + exists j. split; [lia|].
      assert (Hz : zip val syms !! i = Some (v, s))
        by (by apply lookup_zip_Some).
      rewrite (drop_S _ _ _ Hz). cbn [roman_greedy].
      by rewrite string_app_assoc.
  - exfalso. destruct (syms_defined _ _ Hv) as [s Hs].
    rewrite (roman_for_ok _ _ _ _ _ _ Hs Hv) in Heq. discriminate.
Qed.

Lemma convert_to_roman_numeral (num : Z) :
  0 <= num -> convert_to_roman num = Ok (roman_numeral num).
Proof.
  intros Hnum. unfold convert_to_roman, roman_numeral.
  destruct (roman_while_greedy num 0 "" Hnum) as (j & _ & ->);
    [lia | lia | reflexivity].
Qed.

(** C9. [convert_to_roman] is total on the integers: an input that is not
    positive gives the empty string; a positive input gives the subtractive
    numeral, the loop ending at an index no larger than the length of the
    table without ever reading past it; and at the last index, whose value
    is 1, the inner loop leaves nothing of what remains. *)
Theorem convert_to_roman_total (num : Z) :
  (num <= 0 -> convert_to_roman num = Ok "")
  /\ (0 < num ->
      exists j : nat,
        (j <= length val)%nat
        /\ roman_while num 0 "" = Ok (roman_numeral num, j)
        /\ convert_to_roman num = Ok (roman_numeral num))
  /\ (forall (roman_num : string) (n : Z), 0 <= n ->
      exists v : Z,
        val !! 12%nat = Some v
        /\ roman_for (Z.to_nat (n / v)) 12 roman_num n
           = Ok (roman_num +:+ repeat_str "I" (Z.to_nat n), 0)).
Proof.
  split; [|split].
  - intros Hle. unfold convert_to_roman. simp roman_while.
    destruct (Z_gt_dec num 0) as [Hgt|Hng]; [lia | reflexivity].
  - intros Hpos.
    destruct (roman_while_greedy num 0 "") as (j & Hj & Hrun); [lia..|].
    exists j. split; [simpl; lia|]. split.
    + exact Hrun.
    + apply convert_to_roman_numeral. lia.
  - intros roman_num n Hn. exists 1. split; [reflexivity|].
    rewrite (roman_for_ok _ 12 "I" 1) by reflexivity.
    rewrite Z.div_1_r. do 2 f_equal. lia.
Qed.

Lemma convert_to_roman_total_witness :
  convert_to_roman (-5) = Ok ""
  /\ convert_to_roman 1987 = Ok (roman_numeral 1987).
Proof.
  split.
  - apply (proj1 (convert_to_roman_total (-5))). lia.
  - destruct (proj1 (proj2 (convert_to_roman_total 1987))) as (j & _ & _ & H);
      [lia | exact H].
Defined.

(** ** Section and item labels *)

Lemma chr_letter (n : Z) : 0 <= n < 26 -> chr (65 + n) = letter n.
Proof.
  intros Hn. rewrite <- (Z2Nat.id n) by lia.
  assert (Hk : (Z.to_nat n < 26)%nat) by lia.
  generalize dependent (Z.to_nat n). clear Hn. intros k Hk.
  do 26 (destruct k as [|k]; [reflexivity|]). lia.
Qed.

Lemma convert_to_letter_negative (num : Z) :
  num < 0 -> convert_to_letter num = "".
Proof.
  intros Hn. simp convert_to_letter.
  destruct (Z_lt_dec num 0) as [Hlt|Hge]; [reflexivity | lia].
Qed.

Lemma convert_to_letter_small (num : Z) :
  0 <= num < 26 -> convert_to_letter num = chr (65 + num).
Proof.
  intros Hn. simp convert_to_letter.
  destruct (Z_lt_dec num 0) as [Hlt|Hge]; [lia|].
  cbn. destruct (Z_lt_dec num 26) as [Hlt|Hge']; [reflexivity | lia].
Qed.

Lemma convert_to_letter_large (num : Z) :
  26 <= num ->
  convert_to_letter num
  = convert_to_letter (num / 26 - 1) +:+ chr (65 + num mod 26).
Proof.
  intros Hn. rewrite convert_to_letter_equation_1.
  destruct (Z_lt_dec num 0) as [Hlt|Hge]; [lia|].
  cbn. destruct (Z_lt_dec num 26) as [Hlt|Hge']; [lia | reflexivity].
Qed.

Lemma chr_inj (a b : Z) :
  0 <= a < 26 -> 0 <= b < 26 -> chr (65 + a) = chr (65 + b) -> a = b.
Proof.
  intros Ha Hb. unfold chr. intros [= Heq].
  apply (f_equal Ascii.N_of_ascii) in Heq.
  rewrite !Ascii.N_ascii_embedding in Heq by lia. lia.
Qed.

Lemma string_snoc_inj (s1 s2 : string) (c1 c2 : Ascii.ascii) :
  s1 +:+ String c1 "" = s2 +:+ String c2 "" -> s1 = s2 /\ c1 = c2.
Proof.
  revert s2. induction s1 as [|a s1 IH]; intros [|b s2];
    rewrite ?string_app_cons, ?string_app_nil_l; intros Heq.
  - by injection Heq as ->.
  - injection Heq as _ Heq. by destruct s2.
  - injection Heq as _ Heq. by destruct s1.
  - injection Heq as -> Heq. by destruct (IH _ Heq) as [-> ->].
Qed.

Lemma string_snoc_single (s : string) (c1 c2 : Ascii.ascii) :
  s +:+ String c1 "" = String c2 "" -> s = "".
Proof.
  intros Heq. by apply (string_snoc_inj s "" c1 c2).
Qed.

Lemma convert_to_letter_nonempty (n : Z) :
  0 <= n -> convert_to_letter n <> "".
Proof.
  intros Hn. destruct (Z_lt_dec n 26) as [Hlt|Hge].
  - rewrite convert_to_letter_small by lia. discriminate.
  - rewrite convert_to_letter_large by lia. unfold chr.
    by destruct (convert_to_letter (n / 26 - 1)).
Qed.

(** Distinct indices have distinct labels. *)
Lemma convert_to_letter_inj (m n : Z) :
  0 <= m -> 0 <= n -> convert_to_letter m = convert_to_letter n -> m = n.
Proof.
  intros Hm. revert n. pattern m. apply Z_lt_induction; [|exact Hm].
  clear m Hm. intros m IH n Hn Heq.
  destruct (Z_lt_dec m 0) as [Hneg|Hm].
  { rewrite convert_to_letter_negative in Heq by lia. symmetry in Heq.
    by apply convert_to_letter_nonempty in Heq. }
  assert (Hdiv : forall k, 26 <= k -> 0 <= k / 26 - 1 < k).
  { intros k Hk. assert (1 <= k / 26) by (apply Z.div_le_lower_bound; lia).
    assert (k / 26 <= k) by (apply Z.div_le_upper_bound; lia). lia. }
  destruct (Z_lt_dec m 26) as [Hm26|Hm26], (Z_lt_dec n 26) as [Hn26|Hn26].
  - rewrite (convert_to_letter_small m), (convert_to_letter_small n) in Heq
      by lia.
    apply chr_inj; [lia..|done].
  - rewrite (convert_to_letter_small m), (convert_to_letter_large n) in Heq
      by lia.
    unfold chr in Heq. symmetry in Heq. apply string_snoc_single in Heq.
    destruct (convert_to_letter_nonempty (n / 26 - 1));
      [specialize (Hdiv n); lia | done].
  - rewrite (convert_to_letter_large m), (convert_to_letter_small n) in Heq
      by lia.
    unfold chr in Heq. apply string_snoc_single in Heq.
    destruct (convert_to_letter_nonempty (m / 26 - 1));
      [specialize (Hdiv m); lia | done].
  - rewrite (convert_to_letter_large m), (convert_to_letter_large n) in Heq
      by lia.
    pose proof (Z.mod_pos_bound m 26) as Hmm.
    pose proof (Z.mod_pos_bound n 26) as Hnm.
    assert (Hc : chr (65 + m mod 26) = chr (65 + n mod 26)
                 /\ convert_to_letter (m / 26 - 1)
                    = convert_to_letter (n / 26 - 1)).
    { unfold chr in *. apply string_snoc_inj in Heq as [-> ->]. done. }
    destruct Hc as [Hc Hp].
    apply chr_inj in Hc; [|lia..].
    apply IH in Hp; [|specialize (Hdiv m); lia | specialize (Hdiv n); lia].
    rewrite (Z.div_mod m 26), (Z.div_mod n 26) by lia. lia.
Qed.

(** C4. [convert_to_letter] is the bijective base-26 numbering of the
    line items: a letter below 26, the label of [n // 26 - 1] followed by
    the letter of [n % 26] from 26 on, the listed values, and the empty
    string for a negative input; and no two indices share a label. *)
Theorem convert_to_letter_spec :
  (forall n : Z, 0 <= n < 26 -> convert_to_letter n = letter n)
  /\ (forall n : Z, 26 <= n ->
      convert_to_letter n
      = convert_to_letter (n / 26 - 1) +:+ letter (n mod 26))
  /\ convert_to_letter 0 = "A"
  /\ convert_to_letter 25 = "Z"
  /\ convert_to_letter 26 = "AA"
  /\ convert_to_letter 27 = "AB"
  /\ convert_to_letter 51 = "AZ"
  /\ convert_to_letter 52 = "BA"
  /\ (forall n : Z, n < 0 -> convert_to_letter n = "")
  /\ (forall m n : Z,
      0 <= m -> 0 <= n -> convert_to_letter m = convert_to_letter n -> m = n).
Proof.
  split; [|split].
  - intros n Hn. rewrite convert_to_letter_small by lia. by apply chr_letter.
  - intros n Hn. rewrite convert_to_letter_large by lia.
    rewrite chr_letter; [reflexivity|]. apply Z.mod_pos_bound. lia.
  - repeat split; try reflexivity.
    + apply convert_to_letter_negative.
    + apply convert_to_letter_inj.
Qed.

Lemma convert_to_letter_spec_witness :
  convert_to_letter 7 = letter 7
  /\ convert_to_letter 730 = convert_to_letter (730 / 26 - 1) +:+ letter (730 mod 26)
  /\ convert_to_letter (-4) = "".
Proof.
  destruct convert_to_letter_spec
    as (Hsmall & Hlarge & _ & _ & _ & _ & _ & _ & Hneg & _).
  split; [apply (Hsmall 7); lia|].
  split; [apply (Hlarge 730); lia|].
  apply (Hneg (-4)). lia.
Defined.

(** C5. The section label is the explicit number label when one is given
    (a value that is true: not empty, not zero), and otherwise the Roman
    numeral of the index plus one, which is the subtractive numeral; the
    conversion gives the values the specification lists. *)
Theorem section_number_spec :
  (forall (section_idx : nat) (section : Section_) (v : scalar),
      section_sectionNumber section = Some v -> scalar_truthy v = true ->
      section_number section_idx section = Ok (py_str v))
  /\ (forall (section_idx : nat) (section : Section_),
      get_truthy scalar_truthy (section_sectionNumber section) = false ->
      section_number section_idx section
      = convert_to_roman (Z.of_nat section_idx + 1)
      /\ convert_to_roman (Z.of_nat section_idx + 1)
         = Ok (roman_numeral (Z.of_nat section_idx + 1)))
  /\ convert_to_roman 1 = Ok "I"
  /\ convert_to_roman 4 = Ok "IV"
  /\ convert_to_roman 9 = Ok "IX"
  /\ convert_to_roman 40 = Ok "XL"
  /\ convert_to_roman 90 = Ok "XC"
  /\ convert_to_roman 2024 = Ok "MMXXIV".
Proof.
  split; [|split].
  - intros idx section v Hv Ht. unfold section_number. by rewrite Hv, Ht.
  - intros idx section Hf. split.
    + unfold section_number.
      destruct (section_sectionNumber section) as [v|]; [|reflexivity].
      simpl in Hf. by rewrite Hf.
    + apply convert_to_roman_numeral. lia.
  - repeat split; rewrite convert_to_roman_numeral by lia; reflexivity.
Qed.

Lemma section_number_spec_witness :
  section_number 2 (mkSection None (Some (SStr "IV-A")) (Some "roof") None)
  = Ok "IV-A"
  /\ section_number 3 (mkSection None (Some (SStr "")) (Some "roof") None)
     = convert_to_roman 4.
Proof.
  destruct section_number_spec as (Hgiven & Hroman & _).
  split.
  - apply (Hgiven 2%nat _ (SStr "IV-A")); reflexivity.
  - apply (Hroman 3%nat). reflexivity.
Defined.

(** A section whose explicit number label is 0: the label is provided, and
    the heading carries the Roman numeral, not "0". *)
Lemma section_number_zero_label :
  let section := mkSection None (Some (SInt 0)) (Some "roof") None in
  section_sectionNumber section = Some (SInt 0)
  /\ py_str (SInt 0) = "0"
  /\ section_number 0 section = Ok "I"
  /\ section_number 0 section <> Ok (py_str (SInt 0)).
Proof.
  intros section.
  assert (Hroman : section_number 0 section = Ok "I").
  { unfold section_number. cbn.
    rewrite convert_to_roman_numeral by lia. reflexivity. }
  split; [reflexivity|]. split; [reflexivity|]. split; [exact Hroman|].
  rewrite Hroman. discriminate.
Qed.

(** ** Numbers and [sorted] *)

Lemma float_scale_pos : 0 < float_scale.
Proof. unfold float_scale. apply Z.pow_pos_nonneg; lia. Qed.

Lemma comparable_rank (n : number) :
  comparable n <-> exists c v, number_rank n = Some (c, v).
Proof.
  unfold comparable. destruct n as [z|[s|[|]|]]; cbn;
    (split; [intros H | intros (c & v & H)]);
    try discriminate; try (by eauto); by destruct H.
Qed.

Lemma number_lt_rank (a b : number) (c1 v1 c2 v2 : Z) :
  number_rank a = Some (c1, v1) -> number_rank b = Some (c2, v2) ->
  number_lt a b = true <-> c1 < c2 \/ (c1 = c2 /\ v1 < v2).
Proof.
  intros Ha Hb. unfold number_lt. rewrite Ha, Hb.
  rewrite orb_true_iff, andb_true_iff, !Z.ltb_lt, Z.eqb_eq. reflexivity.
Qed.

Lemma number_lt_comparable (a b : number) :
  number_lt a b = true -> comparable a /\ comparable b.
Proof.
  unfold number_lt. rewrite !comparable_rank.
  destruct (number_rank a) as [[c1 v1]|]; [|discriminate].
  destruct (number_rank b) as [[c2 v2]|]; [|discriminate].
  intros _. split; eauto.
Qed.

(** Rewrites the comparisons of numbers with known ranks into integer
    comparisons. *)
Ltac number_order :=
  repeat match goal with
    | H : comparable _ |- _ =>
        apply comparable_rank in H; destruct H as (? & ? & H)
    end;
  repeat match goal with
    | Ha : number_rank ?a = Some _, Hb : number_rank ?b = Some _
      |- context [number_lt ?a ?b] =>
        let H := fresh in
        pose proof (number_lt_rank a b _ _ _ _ Ha Hb) as H;
        destruct (number_lt a b)
    | Ha : number_rank ?a = Some _, Hb : number_rank ?b = Some _,
      H' : context [number_lt ?a ?b] |- _ =>
        let H := fresh in
        pose proof (number_lt_rank a b _ _ _ _ Ha Hb) as H;
        destruct (number_lt a b)
    end;
  repeat match goal with
    | H : _ <-> _ |- _ => destruct H
    end;
  try discriminate; try reflexivity; try (exfalso; intuition lia).

Lemma number_lt_asym (a b : number) :
  number_lt a b = true -> number_lt b a = false.
Proof.
  intros H. destruct (number_lt_comparable a b H) as [Ha Hb].
  revert H. number_order.
Qed.

Lemma number_not_lt_trans (a b c : number) :
  comparable a -> comparable b -> comparable c ->
  number_lt b a = false -> number_lt c b = false -> number_lt c a = false.
Proof. intros Ha Hb Hc. number_order. Qed.

Lemma number_lt_same_key (a b k : number) :
  comparable a -> comparable b -> comparable k ->
  number_lt a b = true -> same_key b k -> ~ same_key a k.
Proof.
  unfold same_key. intros Ha Hb Hk H [H1 H2] [H3 H4].
  revert H H1 H2 H3 H4. number_order.
Qed.

Lemma same_key_sym (a b : number) : same_key a b -> same_key b a.
Proof. unfold same_key. tauto. Qed.

Section Sorted.
Context {A : Type} (key : A -> number).

Lemma insert_by_perm (x : A) (l : list A) : insert_by key x l ≡ₚ x :: l.
Proof.
  induction l as [|y l IH]; [reflexivity|].
  cbn [insert_by]. destruct (number_lt _ _); [|reflexivity].
  rewrite IH. apply Permutation_swap.
Qed.

Lemma sorted_perm (l : list A) : sorted l key ≡ₚ l.
Proof.
  unfold sorted. induction l as [|x l IH]; [reflexivity|].
  cbn [foldr]. rewrite insert_by_perm. by rewrite IH.
Qed.

Lemma insert_by_sorted (x : A) (l : list A) :
  comparable (key x) -> Forall (fun y => comparable (key y)) l ->
  StronglySorted (fun a b => number_lt (key b) (key a) = false) l ->
  StronglySorted (fun a b => number_lt (key b) (key a) = false)
    (insert_by key x l).
Proof.
  intros Hx Hl Hs. induction Hs as [|y l Hs IH Hy]; cbn [insert_by].
  - repeat constructor.
  - apply Forall_cons in Hl as [Hcy Hl].
    destruct (number_lt (key y) (key x)) eqn:Hyx.
    + constructor; [by apply IH|].
      rewrite (insert_by_perm x l). constructor; [|exact Hy].
      by apply number_lt_asym.
    + constructor; [by constructor|].
      constructor; [exact Hyx|].
      rewrite Forall_forall in Hy, Hl. apply Forall_forall. intros z Hz.
      apply (number_not_lt_trans (key x) (key y) (key z));
        [exact Hx | exact Hcy | by apply Hl | exact Hyx | by apply Hy].
Qed.

Lemma sorted_sorted (l : list A) :
  Forall (fun y => comparable (key y)) l ->
  StronglySorted (fun a b => number_lt (key b) (key a) = false)
    (sorted l key).
Proof.
  unfold sorted. induction 1 as [|x l Hx Hl IH]; cbn [foldr].
  - constructor.
  - apply insert_by_sorted; [exact Hx | | exact IH].
    fold (sorted l key). by rewrite (sorted_perm l).
Qed.

Lemma insert_by_filter (k : number) (x : A) (l : list A) :
  comparable k -> comparable (key x) ->
  Forall (fun y => comparable (key y)) l ->
  filter (fun y => same_key (key y) k) (insert_by key x l)
  = filter (fun y => same_key (key y) k) (x :: l).
Proof.
  intros Hk Hx. induction 1 as [|y l Hy Hl IH]; [reflexivity|].
  cbn [insert_by]. destruct (number_lt (key y) (key x)) eqn:Hyx;
    [|reflexivity].
  rewrite (filter_cons _ y), IH, !filter_cons.
  repeat case_decide; try reflexivity.
  by destruct (number_lt_same_key (key y) (key x) k).
Qed.

Lemma sorted_stable (k : number) (l : list A) :
  comparable k -> Forall (fun y => comparable (key y)) l ->
  filter (fun y => same_key (key y) k) (sorted l key)
  = filter (fun y => same_key (key y) k) l.
Proof.
  intros Hk. unfold sorted. induction 1 as [|x l Hx Hl IH]; [reflexivity|].
  cbn [foldr]. rewrite insert_by_filter; [|exact Hk | exact Hx|].
  - by rewrite !filter_cons, IH.
  - fold (sorted l key). by rewrite (sorted_perm l).
Qed.

Lemma sorted_stable_sort_of (l : list A) :
  Forall (fun y => comparable (key y)) l ->
  stable_sort_of key l (sorted l key).
Proof.
  intros Hl. split; [apply sorted_perm|]. split; [by apply sorted_sorted|].
  intros k Hk. by apply sorted_stable.
Qed.

Lemma stable_sorted_eq (l1 l2 : list A) :
  Forall (fun y => comparable (key y)) l1 ->
  StronglySorted (fun a b => number_lt (key b) (key a) = false) l1 ->
  StronglySorted (fun a b => number_lt (key b) (key a) = false) l2 ->
  l1 ≡ₚ l2 ->
  (forall k : number, comparable k ->
      filter (fun y => same_key (key y) k) l1
      = filter (fun y => same_key (key y) k) l2) ->
  l1 = l2.
Proof.
  intros Hc Hs1. revert l2 Hc.
  induction Hs1 as [|x l1 Hs1 IH Hx]; intros l2 Hc Hs2 Hp Hf.
  - by apply Permutation_nil_l in Hp.
  - destruct Hs2 as [|y l2 Hs2 Hy].
    { by apply Permutation_nil_r in Hp. }
    apply Forall_cons in Hc as [Hcx Hc].
    assert (Hxy : same_key (key y) (key x)).
    { assert (Hx2 : x ∈ y :: l2) by (rewrite <- Hp; left).
      assert (Hy1 : y ∈ x :: l1) by (rewrite Hp; left).
      rewrite Forall_forall in Hx, Hy. unfold same_key.
      apply elem_of_cons in Hx2 as [->|Hx2].
      { destruct (number_lt (key y) (key y)) eqn:H; [|done].
        by rewrite (number_lt_asym _ _ H) in H. }
      apply elem_of_cons in Hy1 as [->|Hy1].
      { destruct (number_lt (key x) (key x)) eqn:H; [|done].
        by rewrite (number_lt_asym _ _ H) in H. }
      split; [by apply Hx | by apply Hy]. }
    assert (Hxx : same_key (key x) (key x)).
    { unfold same_key. destruct (number_lt (key x) (key x)) eqn:H; [|done].
      by rewrite (number_lt_asym _ _ H) in H. }
    assert (x = y) as <-.
    { specialize (Hf (key x) Hcx). rewrite !filter_cons in Hf.
      rewrite decide_True in Hf by exact Hxx.
      rewrite decide_True in Hf by exact Hxy.
      congruence. }
    f_equal. apply IH; [exact Hc | exact Hs2 | by eapply Permutation_cons_inv|].
    intros k Hk. specialize (Hf k Hk). rewrite !filter_cons in Hf.
    case_decide; congruence.
Qed.

(** The stable ascending arrangement of a list of comparable keys is
    unique, so on such a list [sorted] is what any stable sort returns. *)
Lemma stable_sort_of_unique (l l1 l2 : list A) :
  Forall (fun y => comparable (key y)) l ->
  stable_sort_of key l l1 -> stable_sort_of key l l2 -> l1 = l2.
Proof.
  intros Hc (Hp1 & Hs1 & Hf1) (Hp2 & Hs2 & Hf2).
  apply stable_sorted_eq; [by rewrite Hp1 | exact Hs1 | exact Hs2
                          | by rewrite Hp1, Hp2 |].
  intros k Hk. by rewrite Hf1, Hf2.
Qed.

(** A list in which no element is less than the one before it is returned
    as it is, whatever its keys: it is one ascending run. *)
Lemma sorted_ascending_run (l : list A) :
  Sorted (fun a b => number_lt (key b) (key a) = false) l ->
  sorted l key = l.
Proof.
  unfold sorted. induction 1 as [|x l Hs IH Hx]; [reflexivity|].
  cbn [foldr]. rewrite IH. destruct Hx as [|y l Hyx]; [reflexivity|].
  cbn [insert_by]. by rewrite Hyx.
Qed.

End Sorted.

(** ** The loops build the layout *)

Section Story.
Context `{RT : Runtime}.

Lemma append_if_app (l : list Flowable) (x : option Flowable) :
  append_if l x = l ++ option_list x.
Proof. destruct x; simpl; [reflexivity | by rewrite app_nil_r]. Qed.

Lemma comment_body_blocks (comment : Comment) (content : list Flowable) :
  comment_body comment content = content ++ comment_blocks comment.
Proof.
  unfold comment_body, comment_blocks.
  by rewrite !append_if_app, <- !app_assoc.
Qed.

Lemma comments_loop_blocks (comments : list Comment) (content : list Flowable) :
  comments_loop comments content
  = content ++ concat (map comment_blocks comments).
Proof.
  revert content. induction comments as [|c comments IH]; intros content.
  - simpl. by rewrite app_nil_r.
  - cbn [comments_loop map concat].
    by rewrite IH, comment_body_blocks, <- app_assoc.
Qed.

Lemma build_line_item_content_blocks (item_idx : nat) (line_item : LineItem) :
  build_line_item_content item_idx line_item
  = line_item_blocks item_idx line_item.
Proof.
  unfold build_line_item_content, line_item_blocks.
  by rewrite comments_loop_blocks, <- app_assoc.
Qed.

Lemma keep_together_or_extend_group (story content : list Flowable) :
  keep_together_or_extend story content = story ++ group_or_blocks content.
Proof.
  unfold keep_together_or_extend, group_or_blocks.
  by destruct (KeepTogether_raises content).
Qed.

Lemma constructed_app (blocks1 blocks2 : list Flowable) :
  constructed (blocks1 ++ blocks2)
  = (_ ← constructed blocks1; constructed blocks2).
Proof.
  induction blocks1 as [|f blocks1 IH]; [reflexivity|].
  cbn [app constructed]. destruct f as [text style| | |]; try exact IH.
  destruct (Paragraph_raises text style); [reflexivity | exact IH].
Qed.

Lemma line_items_loop_blocks (item_idx : nat) (line_items : list LineItem)
  (story : list Flowable) :
  line_items_loop item_idx line_items story
  = (_ ← constructed
           (concat (imap (fun k line_item =>
                            line_item_blocks (item_idx + k) line_item)
                      line_items));
     Ok (story ++ concat (imap (fun k line_item =>
           group_or_blocks (line_item_blocks (item_idx + k) line_item))
         line_items))).
Proof.
  revert item_idx story.
  induction line_items as [|li line_items IH]; intros item_idx story.
  - cbn. by rewrite app_nil_r.
  - cbn [line_items_loop]. rewrite !imap_cons. cbn [concat].
    rewrite constructed_app, build_line_item_content_blocks, Nat.add_0_r.
    destruct (constructed (line_item_blocks item_idx li)) as [[]|e];
      [|reflexivity].
    cbn [mbind result_bind]. rewrite IH, keep_together_or_extend_group.
    rewrite <- app_assoc.
    rewrite (imap_ext
               ((fun k line_item => line_item_blocks (item_idx + k) line_item)
                ∘ S)
               (fun k line_item => line_item_blocks (S item_idx + k) line_item))
      by (intros k x _; cbn;
          by replace (item_idx + S k)%nat with (S (item_idx + k)) by lia).
    rewrite (imap_ext
               ((fun k line_item =>
                   group_or_blocks (line_item_blocks (item_idx + k) line_item))
                ∘ S)
               (fun k line_item =>
                  group_or_blocks (line_item_blocks (S item_idx + k) line_item)))
      by (intros k x _; cbn;
          by replace (item_idx + S k)%nat with (S (item_idx + k)) by lia).
    reflexivity.
Qed.

Lemma section_number_label (section_idx : nat) (section : Section_) :
  section_number section_idx section = Ok (section_label section_idx section).
Proof.
  unfold section_number, section_label.
  destruct (section_sectionNumber section) as [v|];
    [destruct (scalar_truthy v); [reflexivity|]|];
    apply convert_to_roman_numeral; lia.
Qed.

Lemma constructed_section_blocks (section_idx : nat) (section : Section_) :
  constructed (section_blocks (fun blocks => blocks) section_idx section)
  = (_ ← constructed
           [section_header (section_label section_idx section) section];
     constructed
       (concat (imap (fun item_idx line_item =>
                        line_item_blocks item_idx line_item)
                  (sorted (default [] (section_lineItems section))
                     (fun x => get_order (item_order x)))))).
Proof.
  unfold section_blocks. cbn zeta. rewrite !constructed_app.
  destruct (constructed [section_header _ section]) as [[]|e];
    [|reflexivity].
  cbn [mbind result_bind].
  by destruct (constructed (concat _)) as [[]|e].
Qed.

Lemma sections_loop_blocks (section_idx : nat) (sections : list Section_)
  (story : list Flowable) :
  sections_loop section_idx sections story
  = (_ ← constructed
           (concat (imap (fun k section =>
                            section_blocks (fun blocks => blocks)
                              (section_idx + k) section)
                      sections));
     Ok (story ++ concat (imap (fun k section =>
           section_blocks group_or_blocks (section_idx + k) section)
         sections))).
Proof.
  revert section_idx story.
  induction sections as [|s sections IH]; intros section_idx story.
  - cbn. by rewrite app_nil_r.
  - cbn [sections_loop]. rewrite section_number_label.
    cbn [mbind result_bind]. rewrite !imap_cons. cbn [concat].
    rewrite constructed_app, Nat.add_0_r, constructed_section_blocks.
    destruct (constructed [section_header _ s]) as [[]|e]; [|reflexivity].
    cbn [mbind result_bind]. rewrite line_items_loop_blocks.
    cbn [Nat.add].
    destruct (constructed (concat _)) as [[]|e]; [|reflexivity].
    cbn [mbind result_bind]. rewrite IH.
    rewrite (imap_ext
               ((fun k section =>
                   section_blocks (fun blocks => blocks) (section_idx + k)
                     section) ∘ S)
               (fun k section =>
                  section_blocks (fun blocks => blocks) (S section_idx + k)
                    section))
      by (intros k x _; cbn;
          by replace (section_idx + S k)%nat with (S (section_idx + k))
            by lia).
    rewrite (imap_ext
               ((fun k section =>
                   section_blocks group_or_blocks (section_idx + k) section)
                ∘ S)
               (fun k section =>
                  section_blocks group_or_blocks (S section_idx + k) section))
      by (intros k x _; cbn;
          by replace (section_idx + S k)%nat with (S (section_idx + k))
            by lia).
    destruct (constructed (concat _)) as [[]|e]; [|reflexivity].
    cbn [mbind result_bind]. unfold section_blocks at 2. cbn zeta.
    by rewrite <- !app_assoc.
Qed.

(** The story is the layout of the specification, each line item grouped
    where the group can be made, unless one of the paragraphs of the layout
    cannot be constructed: then the call raises what the first such
    paragraph raised. *)
Lemma build_story_layout (sections : list Section_) :
  build_story sections
  = (_ ← constructed (story_layout (fun blocks => blocks) sections);
     Ok (story_layout group_or_blocks sections)).
Proof.
  unfold build_story, story_layout. by rewrite sections_loop_blocks.
Qed.

Lemma build_story_Ok (sections : list Section_) (story : list Flowable) :
  build_story sections = Ok story ->
  constructed (story_layout (fun blocks => blocks) sections) = Ok ()
  /\ story = story_layout group_or_blocks sections.
Proof.
  rewrite build_story_layout.
  destruct (constructed _) as [[]|e]; cbn; [|discriminate].
  by intros [= <-].
Qed.

Lemma build_story_Raise (sections : list Section_) (e : exn) :
  build_story sections = Raise e <->
  constructed (story_layout (fun blocks => blocks) sections) = Raise e.
Proof.
  rewrite build_story_layout.
  destruct (constructed _) as [[]|e']; cbn; split; congruence.
Qed.

End Story.

(** ** Input normaliser *)

Section Normaliser.
Context `{RT : Runtime}.

Lemma str_truthy_true (s : string) : str_truthy s = true <-> s <> "".
Proof. destruct s; simpl; split; congruence. Qed.

Lemma explicit_status_Some (line_item : LineItem) (v : string) :
  item_inspectionStatus line_item = Some v -> v <> "" ->
  valid_status (str_upper v) ->
  explicit_status line_item = Some (str_upper v).
Proof.
  intros Hv Hne Hvalid. unfold explicit_status. rewrite Hv.
  apply str_truthy_true in Hne as ->. cbn zeta.
  by rewrite decide_True.
Qed.

Lemma explicit_status_None (line_item : LineItem) :
  no_valid_status line_item -> explicit_status line_item = None.
Proof.
  intros Hno. unfold explicit_status.
  destruct (item_inspectionStatus line_item) as [v|] eqn:Hv; [|reflexivity].
  destruct (str_truthy v) eqn:Ht; [|reflexivity]. cbn zeta.
  destruct (Hno v Hv) as [->|Hinv]; [discriminate|].
  by rewrite decide_False.
Qed.

Lemma deficient_comment_true (comments : list Comment) :
  deficient_comment comments = true
  <-> exists comment, comment ∈ comments /\ deficient_or_flagged comment.
Proof.
  unfold deficient_or_flagged. induction comments as [|c comments IH].
  - simpl. split; [discriminate|]. intros (c & Hc & _). by apply elem_of_nil in Hc.
  - cbn [deficient_comment]. unfold comment_get at 1. simpl.
    destruct (bool_decide (comment_type c = Some "deficient")) eqn:Hty.
    + apply bool_decide_eq_true in Hty. simpl. split; [|reflexivity].
      intros _. exists c. split; [left | by left].
    + apply bool_decide_eq_false in Hty. simpl.
      destruct (comment_isFlagged c) as [[|]|] eqn:Hfl; simpl.
      * split; [|reflexivity]. intros _. exists c. split; [left | by right].
      * rewrite IH. split.
        -- intros (c' & Hc' & Hd). exists c'. split; [by right | exact Hd].
        -- intros (c' & Hc' & Hd). apply elem_of_cons in Hc' as [->|Hc'].
           ++ destruct Hd as [Hd|Hd]; congruence.
           ++ by exists c'.
      * rewrite IH. split.
        -- intros (c' & Hc' & Hd). exists c'. split; [by right | exact Hd].
        -- intros (c' & Hc' & Hd). apply elem_of_cons in Hc' as [->|Hc'].
           ++ destruct Hd as [Hd|Hd]; congruence.
           ++ by exists c'.
Qed.

(** C1. The status of a line item follows the priority order, first match
    first: an explicit status that is a status of the form once in upper
    case is returned in upper case, whatever the other fields hold;
    otherwise a true deficiency flag gives D; otherwise a comment that is
    tagged deficient or flagged gives D; otherwise any comment gives I;
    otherwise the status is blank. *)
Theorem get_inspection_status_priority (line_item : LineItem) :
  let comments := default [] (item_comments line_item) in
  (forall v : string,
      item_inspectionStatus line_item = Some v -> v <> "" ->
      valid_status (str_upper v) ->
      get_inspection_status line_item = str_upper v)
  /\ (no_valid_status line_item ->
      item_isDeficient line_item = Some true ->
      get_inspection_status line_item = "D")
  /\ (no_valid_status line_item ->
      item_isDeficient line_item <> Some true ->
      (exists comment, comment ∈ comments /\ deficient_or_flagged comment) ->
      get_inspection_status line_item = "D")
  /\ (no_valid_status line_item ->
      item_isDeficient line_item <> Some true ->
      (forall comment, comment ∈ comments -> ~ deficient_or_flagged comment) ->
      comments <> [] ->
      get_inspection_status line_item = "I")
  /\ (no_valid_status line_item ->
      item_isDeficient line_item <> Some true ->
      comments = [] ->
      get_inspection_status line_item = "").
Proof.
  intros comments.
  assert (Hflag : item_isDeficient line_item <> Some true ->
                  get_truthy id (item_isDeficient line_item) = false).
  { destruct (item_isDeficient line_item) as [[|]|]; simpl; congruence. }
  split; [|split; [|split; [|split]]].
  - intros v Hv Hne Hvalid. unfold get_inspection_status.
    by rewrite (explicit_status_Some _ _ Hv Hne Hvalid).
  - intros Hno Hdef. unfold get_inspection_status.
    by rewrite (explicit_status_None _ Hno), Hdef.
  - intros Hno Hdef Hex. unfold get_inspection_status.
    rewrite (explicit_status_None _ Hno), (Hflag Hdef).
    apply deficient_comment_true in Hex. fold comments. by rewrite Hex.
  - intros Hno Hdef Hnone Hne. unfold get_inspection_status.
    rewrite (explicit_status_None _ Hno), (Hflag Hdef). fold comments.
    destruct (deficient_comment comments) eqn:Hd.
    + apply deficient_comment_true in Hd as (c & Hc & Hd). by destruct (Hnone c Hc).
    + by destruct comments.
  - intros Hno Hdef Hnil. unfold get_inspection_status.
    rewrite (explicit_status_None _ Hno), (Hflag Hdef). fold comments.
    by rewrite Hnil.
Qed.

End Normaliser.

Ltac not_in_list :=
  let H := fresh in
  intros H; repeat (apply elem_of_cons in H as [H|H]; [discriminate H|]);
  by apply elem_of_nil in H.

Lemma get_inspection_status_priority_witness :
  let rt := simple_runtime None in
  let flagged :=
    mkComment None None None (Some "crack") None None None None None None
      (Some true) in
  let plain :=
    mkComment None None None (Some "fine") None None None None None
      (Some "info") (Some false) in
  get_inspection_status
    (mkLineItem None None None (Some "ni") (Some true) (Some [flagged])) = "NI"
  /\ get_inspection_status
       (mkLineItem None None None (Some "maybe") (Some true) None) = "D"
  /\ get_inspection_status
       (mkLineItem None None None None (Some false) (Some [plain; flagged]))
     = "D"
  /\ get_inspection_status
       (mkLineItem None None None (Some "") None (Some [plain])) = "I"
  /\ get_inspection_status
       (mkLineItem None None None None None (Some [])) = "".
Proof.
  intros rt flagged plain.
  split; [|split; [|split; [|split]]].
  - apply (proj1 (@get_inspection_status_priority rt _) "ni");
      [reflexivity | discriminate |].
    unfold valid_status. right; left.
  - apply (proj1 (proj2 (@get_inspection_status_priority rt _)));
      [|reflexivity].
    intros v [= <-]. right. unfold valid_status. not_in_list.
  - apply (proj1 (proj2 (proj2 (@get_inspection_status_priority rt _)))).
    + intros v [=].
    + discriminate.
    + exists flagged. split; [right; left | by right].
  - apply (proj1 (proj2 (proj2 (proj2 (@get_inspection_status_priority rt _))))).
    + intros v [= <-]. by left.
    + discriminate.
    + intros c Hc. apply list_elem_of_singleton in Hc as ->.
      intros [Hd|Hd]; discriminate Hd.
    + discriminate.
  - apply (proj2 (proj2 (proj2 (proj2 (@get_inspection_status_priority rt _))))).
    + intros v [=].
    + discriminate.
    + reflexivity.
Defined.

Section CommentText.
Context `{RT : Runtime}.

Lemma escape_html_entities_truthy (text : string) :
  str_truthy text = true -> escape_html_entities text = html_unescape text.
Proof. intros Ht. unfold escape_html_entities. by rewrite Ht. Qed.

(** What [first_nonempty] finds is not empty and is the first such value:
    every field in front of it is absent or empty; and it finds nothing
    only when every field is absent or empty. *)
Lemma first_nonempty_spec (fields : list (option string)) :
  match first_nonempty fields with
  | Some v =>
      v <> ""
      /\ exists before after,
           fields = before ++ Some v :: after
           /\ Forall (fun f => f = None \/ f = Some "") before
  | None => Forall (fun f => f = None \/ f = Some "") fields
  end.
Proof.
  induction fields as [|[v|] fields IH]; cbn [first_nonempty].
  - constructor.
  - destruct (str_truthy v) eqn:Ht.
    + split; [by apply str_truthy_true|]. by exists [], fields.
    + assert (v = "") as -> by (by destruct v).
      destruct (first_nonempty fields) as [w|].
      * destruct IH as (Hw & before & after & -> & Hb). split; [exact Hw|].
        exists (Some "" :: before), after. split; [reflexivity|].
        constructor; [by right | exact Hb].
      * constructor; [by right | exact IH].
  - destruct (first_nonempty fields) as [w|].
    + destruct IH as (Hw & before & after & -> & Hb). split; [exact Hw|].
      exists (None :: before), after. split; [reflexivity|].
      constructor; [by left | exact Hb].
    + constructor; [by left | exact IH].
Qed.

(** C7. The text of a comment is the first non-empty value among the
    fields text, content, commentText and value, in this order, with its
    HTML entities decoded, and the empty string when none of them has a
    non-empty value. *)
Theorem get_comment_text_first_nonempty (comment : Comment) :
  let fields :=
    [comment_text comment; comment_content comment;
     comment_commentText comment; comment_value comment] in
  get_comment_text comment
  = match first_nonempty fields with
    | Some v => html_unescape v
    | None => ""
    end
  /\ match first_nonempty fields with
     | Some v =>
         v <> ""
         /\ exists before after,
              fields = before ++ Some v :: after
              /\ Forall (fun f => f = None \/ f = Some "") before
     | None => Forall (fun f => f = None \/ f = Some "") fields
     end.
Proof.
  intros fields. split; [|apply first_nonempty_spec].
  unfold get_comment_text, fields.
  cbn [get_comment_text_loop first_nonempty]. unfold comment_get. simpl.
  destruct (comment_text comment) as [v1|];
    [destruct (str_truthy v1) eqn:H1;
       [by rewrite escape_html_entities_truthy|]|];
  (destruct (comment_content comment) as [v2|];
    [destruct (str_truthy v2) eqn:H2;
       [by rewrite escape_html_entities_truthy|]|]);
  (destruct (comment_commentText comment) as [v3|];
    [destruct (str_truthy v3) eqn:H3;
       [by rewrite escape_html_entities_truthy|]|]);
  (destruct (comment_value comment) as [v4|];
    [destruct (str_truthy v4) eqn:H4;
       [by rewrite escape_html_entities_truthy|]|]);
  reflexivity.
Qed.

Lemma comment_blocks_media (comment : Comment) :
  List.filter is_media_reference (comment_blocks comment)
  = option_list (media_reference comment).
Proof.
  unfold comment_blocks, comment_label_block, comment_text_block,
    media_reference. cbn zeta. rewrite !List.filter_app.
  destruct (str_truthy (default "" _)); destruct (str_truthy (get_comment_text _));
    destruct (_ <? _)%nat; reflexivity.
Qed.

Lemma media_reference_is_Some (comment : Comment) :
  is_Some (media_reference comment) <-> (0 < media_count comment)%nat.
Proof.
  unfold media_reference, media_count. cbn zeta.
  destruct (Nat.ltb_spec 0 (length (default [] (comment_photos comment))
                            + length (default [] (comment_videos comment))))
    as [Hpos|Hzero].
  - split; [intros _; exact Hpos | intros _; eexists; reflexivity].
  - split; [intros [? [=]] | lia].
Qed.

Lemma concat_comment_blocks_media (comments : list Comment) :
  length (List.filter is_media_reference
            (concat (map comment_blocks comments)))
  = length (filter (fun c => (0 < media_count c)%nat) comments).
Proof.
  induction comments as [|c comments IH]; [reflexivity|].
  cbn [map concat]. rewrite List.filter_app, length_app, IH, filter_cons.
  rewrite comment_blocks_media.
  pose proof (media_reference_is_Some c) as Hc.
  destruct (media_reference c) as [f|]; case_decide as Hpos; cbn;
    try reflexivity.
  - exfalso. apply Hpos, Hc. by eexists.
  - apply Hc in Hpos as [? [=]].
Qed.

(** C8. The media count of a comment is the number of its photos plus the
    number of its videos; a media reference is emitted exactly when the
    count is positive: it is then the last block the comment appends, the
    blocks before it are none of them media references, and the content of
    a line item holds as many media references as the line item has
    comments with a positive count; it reads "1 item" for one attached item
    and "N items" for two or more. *)
Theorem media_reference_count (comment : Comment) :
  let total_media :=
    (length (default [] (comment_photos comment))
     + length (default [] (comment_videos comment)))%nat in
  (is_Some (media_reference comment) <-> (0 < total_media)%nat)
  /\ (total_media = 1%nat ->
      media_reference comment
      = Some (Paragraph "See attached media (1 item)" MediaReference))
  /\ ((2 <= total_media)%nat ->
      media_reference comment
      = Some (Paragraph
                ("See attached media (" +:+ pretty total_media +:+ " items)")
                MediaReference))
  /\ (forall content : list Flowable,
      exists before : list Flowable,
        comment_body comment content
        = content ++ before ++ option_list (media_reference comment)
        /\ List.filter is_media_reference before = [])
  /\ (forall (item_idx : nat) (line_item : LineItem),
      length (List.filter is_media_reference
                (build_line_item_content item_idx line_item))
      = length (filter (fun c => (0 < media_count c)%nat)
                  (default [] (item_comments line_item)))).
Proof.
  intros total_media.
  assert (Hbody : forall content : list Flowable,
             exists before : list Flowable,
               comment_body comment content
               = content ++ before ++ option_list (media_reference comment)
               /\ List.filter is_media_reference before = []).
  { intros content. rewrite comment_body_blocks. unfold comment_blocks.
    exists (option_list (comment_label_block comment)
            ++ option_list (comment_text_block comment)).
    split; [by rewrite <- !app_assoc|].
    unfold comment_label_block, comment_text_block. cbn zeta.
    by destruct (str_truthy (default "" _)); destruct (str_truthy (get_comment_text _)). }
  assert (Hitem : forall (item_idx : nat) (line_item : LineItem),
             length (List.filter is_media_reference
                       (build_line_item_content item_idx line_item))
             = length (filter (fun c => (0 < media_count c)%nat)
                         (default [] (item_comments line_item)))).
  { intros item_idx line_item.
    rewrite build_line_item_content_blocks. unfold line_item_blocks.
    cbn zeta. rewrite !List.filter_app, !length_app.
    rewrite concat_comment_blocks_media. cbn [List.filter is_media_reference length].
    rewrite Nat.add_0_r. cbn [Nat.add].
    apply Permutation_length. rewrite (sorted_perm _ _). reflexivity. }
  unfold media_reference. fold total_media.
  split; [|split; [|split; [|split]]]; [| | | exact Hbody | exact Hitem].
  - destruct (Nat.ltb_spec 0 total_media) as [Hpos|Hzero].
    + split; [intros _; exact Hpos | intros _; eexists; reflexivity].
    + split; [intros [? [=]] | lia].
  - intros ->. reflexivity.
  - intros Hn.
    destruct (Nat.ltb_spec 0 total_media) as [_|?]; [|lia].
    destruct (Nat.ltb_spec 1 total_media) as [_|?]; [|lia].
    reflexivity.
Qed.

End CommentText.

Lemma media_reference_count_witness :
  let rt := simple_runtime None in
  media_reference
    (mkComment None None None None None None None
       (Some [MediaRef "p1"]) None None None)
  = Some (Paragraph "See attached media (1 item)" MediaReference)
  /\ media_reference
       (mkComment None None None None None None None
          (Some [MediaRef "p1"; MediaRef "p2"]) (Some [MediaRef "v1"]) None None)
     = Some (Paragraph "See attached media (3 items)" MediaReference).
Proof.
  intros rt. split.
  - apply (proj1 (proj2 (media_reference_count _))). reflexivity.
  - refine (proj1 (proj2 (proj2 (media_reference_count
              (mkComment None None None None None None None
                 (Some [MediaRef "p1"; MediaRef "p2"]) (Some [MediaRef "v1"])
                 None None)))) _).
    simpl. lia.
Defined.

(** ** Keep-together groups *)

Lemma flatten_story_app (l1 l2 : list Flowable) :
  flatten_story (l1 ++ l2) = flatten_story l1 ++ flatten_story l2.
Proof. unfold flatten_story. by rewrite map_app, concat_app. Qed.

Lemma flatten_story_concat (ls : list (list Flowable)) :
  flatten_story (concat ls) = concat (map flatten_story ls).
Proof.
  induction ls as [|l ls IH]; [reflexivity|].
  cbn [concat map]. by rewrite flatten_story_app, IH.
Qed.

Lemma flatten_keep_together (l : list Flowable) :
  flatten_flowable (KeepTogether l) = flatten_story l.
Proof.
  unfold flatten_story. cbn [flatten_flowable].
  induction l as [|f l IH]; [reflexivity|].
  cbn [map concat]. by rewrite IH.
Qed.

Lemma flatten_story_blocks (l : list Flowable) :
  Forall is_block l -> flatten_story l = l.
Proof.
  unfold flatten_story. induction 1 as [|f l Hf _ IH]; [reflexivity|].
  cbn [map concat]. rewrite IH. by destruct f.
Qed.

Section KeepTogether.
Context `{RT : Runtime}.

Lemma option_list_block (x : option Flowable) :
  (forall f, x = Some f -> is_block f) -> Forall is_block (option_list x).
Proof. destruct x as [f|]; simpl; [|constructor]. intros H. repeat constructor. by apply H. Qed.

Lemma comment_blocks_blocks (comment : Comment) :
  Forall is_block (comment_blocks comment).
Proof.
  unfold comment_blocks. rewrite !Forall_app. repeat split;
    apply option_list_block; intros f.
  - unfold comment_label_block. cbn zeta.
    destruct (str_truthy _); [|discriminate]. by intros [= <-].
  - unfold comment_text_block. cbn zeta.
    destruct (str_truthy _); [|discriminate]. by intros [= <-].
  - unfold media_reference. cbn zeta.
    destruct (_ <? _)%nat; [|discriminate]. by intros [= <-].
Qed.

Lemma line_item_blocks_blocks (item_idx : nat) (line_item : LineItem) :
  Forall is_block (line_item_blocks item_idx line_item).
Proof.
  unfold line_item_blocks. cbn zeta. rewrite !Forall_app. repeat split.
  - by repeat constructor.
  - apply Forall_concat, Forall_map, Forall_forall. intros c _.
    apply comment_blocks_blocks.
  - by repeat constructor.
Qed.

Lemma flatten_group_or_blocks (blocks : list Flowable) :
  Forall is_block blocks -> flatten_story (group_or_blocks blocks) = blocks.
Proof.
  intros Hb. unfold group_or_blocks.
  destruct (KeepTogether_raises blocks).
  - by apply flatten_story_blocks.
  - unfold flatten_story. cbn [map concat].
    rewrite flatten_keep_together, app_nil_r. by apply flatten_story_blocks.
Qed.

Lemma flatten_section_blocks (section_idx : nat) (section : Section_) :
  flatten_story (section_blocks group_or_blocks section_idx section)
  = section_blocks (fun blocks => blocks) section_idx section.
Proof.
  unfold section_blocks. cbn zeta.
  rewrite !flatten_story_app, flatten_story_concat.
  f_equal. f_equal. f_equal.
  rewrite fmap_imap. apply imap_ext. intros j li _. cbn.
  apply flatten_group_or_blocks, line_item_blocks_blocks.
Qed.

Lemma flatten_story_layout (sections : list Section_) :
  flatten_story (story_layout group_or_blocks sections)
  = story_layout (fun blocks => blocks) sections.
Proof.
  unfold story_layout. rewrite flatten_story_concat. f_equal.
  rewrite fmap_imap. apply imap_ext. intros i s _. cbn.
  apply flatten_section_blocks.
Qed.


End KeepTogether.


(** ** Ordering *)

Section Ordering.
Context `{RT : Runtime}.

(** C6. When every order key is a number that can be compared (any
    integer or float but NaN), the story holds the sections in the stable
    ascending order of their order key (0 when absent): ascending, and
    input order among equal keys; under each section heading come the line
    items of the section in the stable ascending order of theirs; and in
    each line item the blocks of its comments in the stable ascending order
    of theirs. The story is built when every paragraph of it can be
    constructed, and the first constructor error is raised otherwise. *)
Theorem story_in_stable_order (sections : list Section_) :
  (build_story sections
   = (_ ← constructed (story_layout (fun blocks => blocks) sections);
      Ok (concat (imap (section_blocks group_or_blocks)
                    (sorted sections
                       (fun x => get_order (section_order x)))))))
  /\ (Forall (fun x => comparable (get_order (section_order x))) sections ->
      stable_sort_of (fun x => get_order (section_order x)) sections
        (sorted sections (fun x => get_order (section_order x))))
  /\ (forall (section_idx : nat) (section : Section_),
      section_blocks group_or_blocks section_idx section
      = [section_header (section_label section_idx section) section]
        ++ concat (imap (fun item_idx line_item =>
                     group_or_blocks (line_item_blocks item_idx line_item))
                   (sorted (default [] (section_lineItems section))
                      (fun x => get_order (item_order x))))
        ++ [Spacer (Pt 1) (Inch100 20)]
      /\ (Forall (fun x => comparable (get_order (item_order x)))
            (default [] (section_lineItems section)) ->
          stable_sort_of (fun x => get_order (item_order x))
            (default [] (section_lineItems section))
            (sorted (default [] (section_lineItems section))
               (fun x => get_order (item_order x)))))
  /\ (forall (item_idx : nat) (line_item : LineItem),
      line_item_blocks item_idx line_item
      = [CheckboxMarker (get_inspection_status line_item);
         Paragraph
           (convert_to_letter (Z.of_nat item_idx) +:+ ". "
            +:+ default (default "" (item_title line_item))
                  (item_name line_item))
           LineItemHeader]
        ++ concat (map comment_blocks
                     (sorted (default [] (item_comments line_item))
                        (fun x => get_order (comment_order x))))
        ++ [Spacer (Pt 1) (Inch100 10)]
      /\ (Forall (fun x => comparable (get_order (comment_order x)))
            (default [] (item_comments line_item)) ->
          stable_sort_of (fun x => get_order (comment_order x))
            (default [] (item_comments line_item))
            (sorted (default [] (item_comments line_item))
               (fun x => get_order (comment_order x))))).
Proof.
  split; [|split; [|split]].
  - apply build_story_layout.
  - apply sorted_stable_sort_of.
  - intros section_idx section. split; [reflexivity|].
    apply sorted_stable_sort_of.
  - intros item_idx line_item. split; [reflexivity|].
    apply sorted_stable_sort_of.
Qed.

End Ordering.

(** Three sections with the keys 2, 1.5 and 1: the story takes them in the
    order 1, 1.5, 2. *)
Lemma story_in_stable_order_witness :
  let rt := simple_runtime None in
  let section (order : number) (name : string) :=
    mkSection (Some order) None (Some name) None in
  let sections :=
    [section (Int 2) "roof"; section (Float (Finite (3 * 2 ^ 1073))) "attic";
     section (Int 1) "walls"] in
  Forall (fun x => comparable (get_order (section_order x))) sections
  /\ stable_sort_of (fun x => get_order (section_order x)) sections
       [section (Int 1) "walls";
        section (Float (Finite (3 * 2 ^ 1073))) "attic";
        section (Int 2) "roof"].
Proof.
  intros rt section sections.
  assert (Hkeys : Forall (fun x => comparable (get_order (section_order x)))
                    sections).
  { repeat constructor; discriminate. }
  split; [exact Hkeys|].
  exact (proj1 (proj2 (@story_in_stable_order rt sections)) Hkeys).
Defined.

(** A key that is NaN: no key is less than NaN and NaN is less than no key,
    so the sort moves nothing, and the section with the key 3 stays before
    the section with the key 1. *)
Lemma story_order_nan_counterexample :
  let rt := simple_runtime None in
  let section (order : number) (name : string) :=
    mkSection (Some order) None (Some name) None in
  let sections :=
    [section (Int 3) "roof"; section (Float NaN) "attic";
     section (Int 1) "walls"] in
  build_story sections
  = Ok [Paragraph "I. ROOF" SectionHeader; Spacer (Pt 1) (Inch100 20);
        Paragraph "II. ATTIC" SectionHeader; Spacer (Pt 1) (Inch100 20);
        Paragraph "III. WALLS" SectionHeader; Spacer (Pt 1) (Inch100 20)]
  /\ sorted sections (fun x => get_order (section_order x)) = sections
  /\ number_lt (Int 1) (Int 3) = true
  /\ ~ stable_sort_of (fun x => get_order (section_order x)) sections
        (sorted sections (fun x => get_order (section_order x))).
Proof.
  intros rt section sections.
  assert (Hsame : sorted sections (fun x => get_order (section_order x))
                  = sections) by (vm_compute; reflexivity).
  split; [vm_compute; reflexivity|].
  split; [exact Hsame|].
  split; [vm_compute; reflexivity|].
  rewrite Hsame. intros (_ & Hsorted & _).
  inversion Hsorted as [|? ? _ Hall]; subst.
  inversion Hall as [|? ? _ Hrest]; subst.
  inversion Hrest as [|? ? Hbad _]; subst.
  vm_compute in Hbad. discriminate.
Qed.


(** ** Render entry point *)

Section Render.
Context `{RT : Runtime}.

(** C3. With an empty list of sections the render entry point raises the
    validation error, whatever the metadata and the output path: no path is
    returned and the file system is as it was. The wrapper that takes the
    root object does the same when the object has no sections. *)
Theorem generate_trec_pdf_empty_sections (metadata : gmap string scalar)
  (output_path : string) (w : World) :
  generate_trec_pdf [] metadata output_path w
  = (Raise (ValueError "Sections list cannot be empty"), w)
  /\ (forall (fields : gmap string scalar)
        (given : option (gmap string scalar)),
      generate_trec_pdf_from_json (mkJsonData None fields) output_path given w
      = (Raise (ValueError "Sections list cannot be empty"), w)
      /\ generate_trec_pdf_from_json (mkJsonData (Some []) fields)
           output_path given w
         = (Raise (ValueError "Sections list cannot be empty"), w)).
Proof. split; [reflexivity|]. intros fields given. split; reflexivity. Qed.

Lemma get_report_id_insert_ne (metadata : gmap string scalar)
  (field : string) (v : scalar) :
  field <> "reportId" -> field <> "report_id" ->
  get_report_id (<[field := v]> metadata) = get_report_id metadata.
Proof.
  intros H1 H2. unfold get_report_id. by rewrite !lookup_insert_ne.
Qed.

Lemma generate_trec_pdf_report_id (sections : list Section_)
  (metadata1 metadata2 : gmap string scalar) (output_path : string)
  (w : World) :
  get_report_id metadata1 = get_report_id metadata2 ->
  generate_trec_pdf sections metadata1 output_path w
  = generate_trec_pdf sections metadata2 output_path w.
Proof. intros Hid. unfold generate_trec_pdf. by rewrite Hid. Qed.

(** C10. The render function reads the metadata only for the report
    identifier: two metadata dictionaries with the same identifier
    (reportId, else report_id, else "N/A") give the same result, the same
    files and the same header and footer on every page, and setting
    inspectionDate, propertyAddress, inspectorName or inspectorLicense
    changes nothing. *)
Theorem generate_trec_pdf_metadata (sections : list Section_)
  (output_path : string) (w : World) :
  (forall metadata1 metadata2 : gmap string scalar,
      get_report_id metadata1 = get_report_id metadata2 ->
      generate_trec_pdf sections metadata1 output_path w
      = generate_trec_pdf sections metadata2 output_path w)
  /\ (forall (metadata : gmap string scalar) (field : string) (v : scalar),
      field ∈ ["inspectionDate"; "propertyAddress"; "inspectorName";
               "inspectorLicense"] ->
      generate_trec_pdf sections (<[field := v]> metadata) output_path w
      = generate_trec_pdf sections metadata output_path w)
  /\ (forall metadata : gmap string scalar,
      get_report_id metadata
      = match metadata !! "reportId", metadata !! "report_id" with
        | Some v, _ => v
        | None, Some v => v
        | None, None => SStr "N/A"
        end)
  /\ (forall (metadata1 metadata2 : gmap string scalar)
        (page_number num_pages : nat),
      get_report_id metadata1 = get_report_id metadata2 ->
      page_decoration (get_report_id metadata1) page_number num_pages
      = page_decoration (get_report_id metadata2) page_number num_pages).
Proof.
  split; [|split; [|split]].
  - intros metadata1 metadata2. apply generate_trec_pdf_report_id.
  - intros metadata field v Hf. apply generate_trec_pdf_report_id.
    apply get_report_id_insert_ne; intros ->; revert Hf; not_in_list.
  - intros metadata. unfold get_report_id.
    by destruct (metadata !! "reportId"), (metadata !! "report_id").
  - intros metadata1 metadata2 page_number num_pages Hid. by rewrite Hid.
Qed.

End Render.

Lemma generate_trec_pdf_metadata_witness :
  let rt := simple_runtime None in
  let section := mkSection None None (Some "roof") None in
  let metadata1 : gmap string scalar :=
    <["report_id" := SStr "R-7"]> (<["inspectorName" := SStr "Ann"]> ∅) in
  let metadata2 : gmap string scalar :=
    <["reportId" := SStr "R-7"]> (<["inspectionDate" := SStr "2025-11-01"]> ∅) in
  generate_trec_pdf [section] metadata1 "r.pdf" no_files
  = generate_trec_pdf [section] metadata2 "r.pdf" no_files
  /\ generate_trec_pdf [section]
       (<["propertyAddress" := SStr "123 Main St"]> metadata1) "r.pdf" no_files
     = generate_trec_pdf [section] metadata1 "r.pdf" no_files.
Proof.
  intros rt section metadata1 metadata2. split.
  - apply (proj1 (@generate_trec_pdf_metadata rt [section] "r.pdf" no_files)).
    reflexivity.
  - apply (proj1 (proj2 (@generate_trec_pdf_metadata rt [section] "r.pdf"
                           no_files))).
    right; left.
Defined.

(** ** The functions on sample inputs *)

Example convert_to_roman_3999 : convert_to_roman 3999 = Ok "MMMCMXCIX".
Proof. rewrite convert_to_roman_numeral by lia. reflexivity. Qed.

Example convert_to_roman_4000 : convert_to_roman 4000 = Ok "MMMM".
Proof. rewrite convert_to_roman_numeral by lia. reflexivity. Qed.

Example convert_to_letter_701 : convert_to_letter 701 = "ZZ".
Proof. reflexivity. Qed.

Example convert_to_letter_702 : convert_to_letter 702 = "AAA".
Proof. reflexivity. Qed.

Example sorted_keeps_ties :
  sorted [(1, "a"); (0, "b"); (1, "c"); (0, "d"); (-1, "e")]
    (fun p => Int p.1)
  = [(-1, "e"); (0, "b"); (0, "d"); (1, "a"); (1, "c")].
Proof. vm_compute. reflexivity. Qed.

Example sorted_int_and_float_keys :
  sorted [(Int 2, "a"); (Float (Finite (3 * 2 ^ 1073)), "b");
          (Float (Infinity true), "c"); (Int 1, "d");
          (Float (Finite (2 ^ 1074)), "e")] fst
  = [(Float (Infinity true), "c"); (Int 1, "d");
     (Float (Finite (2 ^ 1074)), "e");
     (Float (Finite (3 * 2 ^ 1073)), "b"); (Int 2, "a")].
Proof. vm_compute. reflexivity. Qed.

Example status_explicit_before_deficient :
  @get_inspection_status (simple_runtime None)
    (mkLineItem None None None (Some "I") (Some true) None) = "I".
Proof. reflexivity. Qed.

Example status_invalid_falls_through :
  @get_inspection_status (simple_runtime None)
    (mkLineItem None None None (Some "inspected") None
       (Some [mkComment None None None (Some "ok") None None None None None
                None None])) = "I".
Proof. reflexivity. Qed.

Example comment_text_second_alias :
  @get_comment_text (simple_runtime None)
    (mkComment None None None (Some "") (Some "a &lt; b &amp; c") None
       (Some "unused") None None None None) = "a < b & c".
Proof. reflexivity. Qed.

Example story_of_two_sections :
  let rt := simple_runtime None in
  let comment (order : Z) (text : string) (photos : list Media) :=
    mkComment (Some (Int order)) None None (Some text) None None None
      (Some photos) None None None in
  let roof :=
    mkLineItem (Some (Int 2)) (Some "Roof") None None None
      (Some [comment 2 "second" []; comment 1 "first" [MediaRef "p"]]) in
  let walls :=
    mkLineItem (Some (Int 1)) None (Some "Walls") (Some "np") None None in
  build_story
    [mkSection (Some (Int 5)) None (Some "structure") (Some [roof; walls]);
     mkSection None (Some (SStr "A")) (Some "summary") None]
  = Ok [Paragraph "A. SUMMARY" SectionHeader;
        Spacer (Pt 1) (Inch100 20);
        Paragraph "II. STRUCTURE" SectionHeader;
        KeepTogether
          [CheckboxMarker "NP"; Paragraph "A. Walls" LineItemHeader;
           Spacer (Pt 1) (Inch100 10)];
        KeepTogether
          [CheckboxMarker "I"; Paragraph "B. Roof" LineItemHeader;
           Paragraph "first" CommentText;
           Paragraph "See attached media (1 item)" MediaReference;
           Paragraph "second" CommentText;
           Spacer (Pt 1) (Inch100 10)];
        Spacer (Pt 1) (Inch100 20)].
Proof. vm_compute. reflexivity. Qed.

Example story_stops_at_refused_paragraph :
  let rt := simple_runtime (Some "<B") in
  build_story
    [mkSection None None (Some "roof") None;
     mkSection None None (Some "<b>walls") None]
  = Raise (ValueError "paragraph text: parse error").
Proof. vm_compute. reflexivity. Qed.

Example render_creates_directory_and_file :
  let rt := simple_runtime None in
  let section := mkSection None None (Some "roof") None in
  let '(path, files) :=
    generate_trec_pdf [section] (<["reportId" := SStr "R-1"]> ∅)
      "generated_files/report.pdf" no_files in
  path = Ok "generated_files/report.pdf"
  /\ files_dirs files = ["generated_files"]
  /\ (fun '(name, doc) => (name, doc_report_id doc)) <$> files_docs files
     = [("generated_files/report.pdf", SStr "R-1")].
Proof. vm_compute. repeat split. Qed.

(** * Further properties of the code *)

(** ** The derived status and its marker *)

Ltac in_list :=
  repeat first [apply list_elem_of_here | apply list_elem_of_further].

Section StatusMarker.
Context `{RT : Runtime}.

Lemma explicit_status_valid (line_item : LineItem) (status : string) :
  explicit_status line_item = Some status -> valid_status status.
Proof.
  unfold explicit_status.
  destruct (item_inspectionStatus line_item) as [v|]; [|discriminate].
  destruct (str_truthy v); [|discriminate]. cbn zeta.
  case_decide; [|discriminate]. by intros [= <-].
Qed.

Lemma get_inspection_status_values (line_item : LineItem) :
  get_inspection_status line_item = ""
  \/ valid_status (get_inspection_status line_item).
Proof.
  unfold get_inspection_status, valid_status.
  destruct (explicit_status line_item) as [status|] eqn:He.
  - right. by apply explicit_status_valid in He.
  - destruct (get_truthy id (item_isDeficient line_item)); [right; in_list|].
    destruct (deficient_comment _); [right; in_list|].
    destruct (default [] (item_comments line_item)); [by left | right; in_list].
Qed.

(** The derived status is always one of I, NI, NP, D or blank, and it is
    blank exactly when the line item has no explicit status that counts, no
    true deficiency flag and no comment. *)
Theorem get_inspection_status_range (line_item : LineItem) :
  get_inspection_status line_item ∈ ["I"; "NI"; "NP"; "D"; ""]
  /\ (get_inspection_status line_item = ""
      <-> explicit_status line_item = None
          /\ item_isDeficient line_item <> Some true
          /\ default [] (item_comments line_item) = []).
Proof.
  unfold get_inspection_status.
  destruct (explicit_status line_item) as [status|] eqn:He.
  - apply explicit_status_valid in He. unfold valid_status in He. split.
    + revert He. rewrite !elem_of_cons. tauto.
    + split; [|by intros [[=] _]].
      intros ->. exfalso. revert He. not_in_list.
  - destruct (item_isDeficient line_item) as [[|]|]; simpl;
      try (split; [in_list | split; [discriminate | by intros (_ & ? & _)]]);
      (destruct (deficient_comment _) eqn:Hd;
       [ split; [in_list|]; split; [discriminate|];
         intros (_ & _ & Hnil); rewrite Hnil in Hd; discriminate
       | destruct (default [] (item_comments line_item));
         (split; [in_list|]); split; try discriminate; try done;
         by intros (_ & _ & [=]) ]).
Qed.

Lemma checkbox_box_rects (status : string) (i : nat) (stat : string) :
  List.filter is_rect (checkbox_box status i stat)
  = [Rect (-90 + Z.of_nat i * 18) 3 10 10].
Proof. unfold checkbox_box. cbn zeta. by destruct (checkbox_selected _ _). Qed.

Lemma checkbox_box_lines (status : string) (i : nat) (stat : string) :
  length (List.filter is_line (checkbox_box status i stat))
  = if checkbox_selected status stat then 2%nat else 0%nat.
Proof. unfold checkbox_box. cbn zeta. by destruct (checkbox_selected _ _). Qed.

Lemma CheckboxMarker_draw_lines_count (status : string) :
  length (List.filter is_line (CheckboxMarker_draw status))
  = (if str_truthy status
        && bool_decide (str_upper status ∈ checkbox_statuses)
     then 2%nat else 0%nat).
Proof.
  unfold CheckboxMarker_draw, checkbox_statuses. cbn [imap concat].
  unfold compose. rewrite !List.filter_app, !length_app, !checkbox_box_lines.
  unfold checkbox_selected.
  destruct (str_truthy status); simpl; [|reflexivity].
  destruct (bool_decide (str_upper status ∈ _)) eqn:Hin.
  - apply bool_decide_eq_true in Hin.
    repeat (apply elem_of_cons in Hin as [->|Hin]; [reflexivity|]).
    by apply elem_of_nil in Hin.
  - apply bool_decide_eq_false in Hin.
    rewrite !bool_decide_eq_false_2; [reflexivity|..];
      intros Heq; apply Hin; rewrite <- Heq; in_list.
Qed.

(** The marker always draws its four squares, 18 points apart from 90
    points left of the text column; it crosses one square, the one of the
    status in upper case, when the status is not empty and is one of the
    four in upper case, and none otherwise. *)
Theorem CheckboxMarker_draw_boxes (status : string) :
  List.filter is_rect (CheckboxMarker_draw status)
  = [Rect (-90) 3 10 10; Rect (-72) 3 10 10; Rect (-54) 3 10 10;
     Rect (-36) 3 10 10]
  /\ length (List.filter is_line (CheckboxMarker_draw status))
     = (if str_truthy status
           && bool_decide (str_upper status ∈ checkbox_statuses)
        then 2%nat else 0%nat)
  /\ (forall (i : nat) (stat : string),
      checkbox_statuses !! i = Some stat ->
      stat = str_upper status -> status <> "" ->
      List.filter is_line (CheckboxMarker_draw status)
      = [Line (-90 + Z.of_nat i * 18) 3 (-90 + Z.of_nat i * 18 + 10) 13;
         Line (-90 + Z.of_nat i * 18 + 10) 3 (-90 + Z.of_nat i * 18) 13]).
Proof.
  split; [|split].
  - unfold CheckboxMarker_draw, checkbox_statuses. cbn [imap concat].
    unfold compose. rewrite !List.filter_app, !checkbox_box_rects. reflexivity.
  - apply CheckboxMarker_draw_lines_count.
  - unfold CheckboxMarker_draw, checkbox_statuses. cbn [imap concat].
    intros i stat Hi -> Hne. apply str_truthy_true in Hne.
    unfold compose, checkbox_box, checkbox_selected. cbn zeta. rewrite Hne.
    cbn [andb].
    do 4 (destruct i as [|i];
          [simpl in Hi; injection Hi as Hi; rewrite <- Hi; reflexivity|]).
    discriminate.
Qed.

(** The marker of a line item crosses exactly one square when the derived
    status is not blank and leaves the four squares empty when it is blank,
    provided upper-casing leaves I, NI, NP and D as they are. *)
Theorem CheckboxMarker_of_status (line_item : LineItem) :
  (forall s : string, valid_status s -> str_upper s = s) ->
  length (List.filter is_line
            (CheckboxMarker_draw (get_inspection_status line_item)))
  = (if decide (get_inspection_status line_item = "") then 0%nat else 2%nat).
Proof.
  intros Hupper. rewrite CheckboxMarker_draw_lines_count.
  case_decide as Hblank; [by rewrite Hblank|].
  assert (Hvalid : valid_status (get_inspection_status line_item)).
  { by destruct (get_inspection_status_values line_item). }
  rewrite (Hupper _ Hvalid).
  apply str_truthy_true in Hblank as ->.
  by rewrite bool_decide_eq_true_2.
Qed.

End StatusMarker.

Lemma CheckboxMarker_draw_boxes_witness :
  let rt := simple_runtime None in
  List.filter is_line (CheckboxMarker_draw "np")
  = [Line (-54) 3 (-44) 13; Line (-44) 3 (-54) 13].
Proof.
  intros rt.
  apply (proj2 (proj2 (@CheckboxMarker_draw_boxes rt "np")) 2%nat "NP");
    [reflexivity | reflexivity | discriminate].
Defined.

Lemma CheckboxMarker_of_status_witness :
  let rt := simple_runtime None in
  length (List.filter is_line
            (CheckboxMarker_draw
               (get_inspection_status
                  (mkLineItem None None None (Some "d") None None))))
  = 2%nat.
Proof.
  intros rt.
  apply (@CheckboxMarker_of_status rt
           (mkLineItem None None None (Some "d") None None)).
  intros s Hs. unfold valid_status in Hs.
  repeat (apply elem_of_cons in Hs as [->|Hs]; [reflexivity|]).
  by apply elem_of_nil in Hs.
Defined.

(** ** Page numbers of the report canvas *)

Section CanvasPages.
Context `{BC : BaseCanvas}.

Lemma draw_all_app (ops1 ops2 : list DrawOp) (attrs : CanvasAttrs) :
  draw_all (ops1 ++ ops2) attrs = draw_all ops2 (draw_all ops1 attrs).
Proof. unfold draw_all. apply foldl_app. Qed.

Lemma draw_all_pageNumber (ops : list DrawOp) (attrs : CanvasAttrs) :
  (forall op a, attrs_pageNumber (Canvas_draw op a) = attrs_pageNumber a) ->
  attrs_pageNumber (draw_all ops attrs) = attrs_pageNumber attrs.
Proof.
  intros Hdraw. revert attrs. unfold draw_all.
  induction ops as [|op ops IH]; intros attrs; [reflexivity|].
  cbn [foldl]. by rewrite IH, Hdraw.
Qed.

Lemma canvas_step_numbered (first : nat) (c : TRECReportCanvas)
  (call : canvas_call) :
  (forall a, attrs_pageNumber (Canvas_startPage a) = S (attrs_pageNumber a)) ->
  keeps_pageNumber call ->
  pages_numbered first c -> pages_numbered first (canvas_step c call).
Proof.
  intros Hstart Hcall [Hsaved Hcur]. destruct call as [method|]; cbn.
  - split; [exact Hsaved|]. cbn in *. by rewrite Hcall.
  - split; cbn.
    + rewrite fmap_app, length_app, seq_app, Hsaved. cbn. by rewrite Hcur.
    + rewrite Hstart, Hcur, length_app. cbn. lia.
Qed.

Lemma canvas_step_saved_length (c : TRECReportCanvas) (call : canvas_call) :
  length (canvas_saved_page_states (canvas_step c call))
  = (length (canvas_saved_page_states c)
     + if is_showPage call then 1 else 0)%nat.
Proof.
  destruct call; cbn; [lia|]. rewrite length_app. cbn. lia.
Qed.

Lemma canvas_run_numbered (first : nat) (calls : list canvas_call)
  (c : TRECReportCanvas) :
  (forall a, attrs_pageNumber (Canvas_startPage a) = S (attrs_pageNumber a)) ->
  Forall keeps_pageNumber calls ->
  pages_numbered first c ->
  pages_numbered first (canvas_run calls c)
  /\ length (canvas_saved_page_states (canvas_run calls c))
     = (length (canvas_saved_page_states c)
        + length (List.filter is_showPage calls))%nat.
Proof.
  intros Hstart Hcalls. revert c. unfold canvas_run.
  induction Hcalls as [|call calls Hcall _ IH]; intros c Hc.
  - cbn. split; [exact Hc | lia].
  - cbn [foldl].
    destruct (IH (canvas_step c call)) as [Hnum Hlen].
    { by apply canvas_step_numbered. }
    split; [exact Hnum|]. rewrite Hlen, canvas_step_saved_length.
    cbn [List.filter]. destruct (is_showPage call); cbn; lia.
Qed.

Lemma save_page_show_decorated (total : nat) (saved : list CanvasAttrs)
  (first : nat) (acc : CanvasAttrs * PdfDoc) :
  (forall op a, attrs_pageNumber (Canvas_draw op a) = attrs_pageNumber a) ->
  attrs_pageNumber <$> saved = seq first (length saved) ->
  foldl (save_page total) acc saved = show_decorated first total saved acc.
Proof.
  intros Hdraw. revert first acc.
  induction saved as [|state saved IH]; intros first acc Hsaved;
    [reflexivity|].
  cbn in Hsaved. injection Hsaved as Hstate Hsaved.
  cbn [foldl show_decorated]. rewrite <- (IH (S first)) by exact Hsaved.
  f_equal. unfold save_page, page_decoration. cbn zeta.
  by rewrite draw_all_app, draw_all_pageNumber, Hstate by exact Hdraw.
Qed.

(** After any calls of the layout that leave the page number alone and any
    number of [showPage], [save] shows as many pages as [showPage] was
    called, in the order they were saved, the [j]-th of them with the
    header and the footer "Page first+j of total" drawn over what the
    layout drew, [first] being the page number the canvas started with, and
    then writes the document; this needs [_startPage] to advance the page
    number by one and the drawing methods to leave it alone. *)
Theorem save_numbers_pages (attrs0 : CanvasAttrs) (calls : list canvas_call) :
  (forall a, attrs_pageNumber (Canvas_startPage a) = S (attrs_pageNumber a)) ->
  (forall op a, attrs_pageNumber (Canvas_draw op a) = attrs_pageNumber a) ->
  Forall keeps_pageNumber calls ->
  let c := canvas_run calls (new_canvas attrs0) in
  let total := length (List.filter is_showPage calls) in
  length (canvas_saved_page_states c) = total
  /\ (forall doc : PdfDoc,
      save c doc
      = let '(attrs, doc) :=
          show_decorated (attrs_pageNumber attrs0) total
            (canvas_saved_page_states c) (canvas_attrs c, doc) in
        Canvas_save attrs doc).
Proof.
  intros Hstart Hdraw Hcalls c total.
  destruct (canvas_run_numbered (attrs_pageNumber attrs0) calls
              (new_canvas attrs0) Hstart Hcalls) as [[Hsaved _] Hlen].
  { split; cbn; [reflexivity | lia]. }
  cbn in Hlen. fold c in Hsaved, Hlen. fold total in Hlen.
  split; [exact Hlen|].
  intros doc. unfold save. cbn zeta. rewrite Hlen.
  by rewrite (save_page_show_decorated total _ (attrs_pageNumber attrs0)).
Qed.

End CanvasPages.

(** Two pages: each comes out with what the layout drew on it, then the
    header, then its own footer. *)
Lemma save_numbers_pages_witness :
  let bc := simple_canvas in
  let attrs0 := mkSimpleAttrs 1 (SStr "R-1") [] in
  let calls :=
    [CallBase (Canvas_draw (DrawString 10 10 "first page"));
     CallShowPage;
     CallBase (Canvas_draw (DrawString 10 10 "second page"));
     CallShowPage] in
  let c := canvas_run calls (new_canvas attrs0) in
  length (canvas_saved_page_states c) = 2%nat
  /\ save c []
     = [DrawString 10 10 "first page" :: page_decoration (SStr "R-1") 1 2;
        DrawString 10 10 "second page" :: page_decoration (SStr "R-1") 2 2].
Proof.
  intros bc attrs0 calls c.
  assert (Hcalls : Forall keeps_pageNumber calls).
  { repeat constructor. }
  destruct (@save_numbers_pages bc attrs0 calls
              (fun a => eq_refl) (fun op a => eq_refl) Hcalls) as [Hlen Hsave].
  split; [exact Hlen|].
  etransitivity; [exact (Hsave []) | vm_compute; reflexivity].
Defined.

(** ** Blocks of the story *)

Lemma has_newline_app (s1 s2 : string) :
  has_newline (s1 +:+ s2) = has_newline s1 || has_newline s2.
Proof.
  induction s1 as [|c s1 IH]; [reflexivity|].
  rewrite string_app_cons. cbn [has_newline]. by rewrite IH, orb_assoc.
Qed.

Lemma replace_newline_clean (s : string) :
  has_newline (replace_newline s) = false.
Proof.
  induction s as [|c s IH]; [reflexivity|]. cbn [replace_newline].
  destruct (Ascii.eqb c _) eqn:Hc.
  - rewrite has_newline_app, IH. reflexivity.
  - cbn [has_newline]. by rewrite Hc, IH.
Qed.

Section Blocks.
Context `{RT : Runtime}.

Lemma option_list_length {A} (x : option A) :
  (length (option_list x) <= 1)%nat.
Proof. destruct x; simpl; lia. Qed.

Lemma comment_label_block_kind (comment : Comment) (f : Flowable) :
  comment_label_block comment = Some f -> is_comment_block f = true.
Proof.
  unfold comment_label_block. cbn zeta.
  destruct (str_truthy _); [|discriminate]. by intros [= <-].
Qed.

Lemma comment_text_block_kind (comment : Comment) (f : Flowable) :
  comment_text_block comment = Some f -> is_comment_block f = true.
Proof.
  unfold comment_text_block. cbn zeta.
  destruct (str_truthy _); [|discriminate]. by intros [= <-].
Qed.

Lemma media_reference_kind (comment : Comment) (f : Flowable) :
  media_reference comment = Some f -> is_comment_block f = true.
Proof.
  unfold media_reference. cbn zeta.
  destruct (_ <? _)%nat; [|discriminate]. by intros [= <-].
Qed.

Lemma comment_blocks_kind (comment : Comment) :
  Forall (fun f => is_comment_block f = true) (comment_blocks comment)
  /\ (length (comment_blocks comment) <= 3)%nat.
Proof.
  unfold comment_blocks. split.
  - rewrite !Forall_app. repeat split.
    + destruct (comment_label_block comment) as [f|] eqn:H; simpl;
        [|constructor]. repeat constructor. by eapply comment_label_block_kind.
    + destruct (comment_text_block comment) as [f|] eqn:H; simpl;
        [|constructor]. repeat constructor. by eapply comment_text_block_kind.
    + destruct (media_reference comment) as [f|] eqn:H; simpl;
        [|constructor]. repeat constructor. by eapply media_reference_kind.
  - rewrite !length_app.
    pose proof (option_list_length (comment_label_block comment)).
    pose proof (option_list_length (comment_text_block comment)).
    pose proof (option_list_length (media_reference comment)). lia.
Qed.

Lemma concat_comment_blocks (comments : list Comment) :
  Forall (fun f => is_comment_block f = true)
    (concat (map comment_blocks comments))
  /\ (length (concat (map comment_blocks comments)) <= 3 * length comments)%nat.
Proof.
  induction comments as [|c comments [IHk IHl]]; cbn [map concat].
  - split; [constructor | simpl; lia].
  - destruct (comment_blocks_kind c) as [Hk Hl]. split.
    + by apply Forall_app.
    + rewrite length_app. cbn [length]. lia.
Qed.

(** [replace_newline] leaves no line feed in its result and leaves a text
    without a line feed as it is; so the text block of a comment, when
    there is one, is a paragraph in the comment text style without a line
    feed. *)
Theorem replace_newline_no_newline (s : string) :
  has_newline (replace_newline s) = false
  /\ (has_newline s = false -> replace_newline s = s)
  /\ (forall (comment : Comment) (f : Flowable),
      comment_text_block comment = Some f ->
      exists text, f = Paragraph text CommentText /\ has_newline text = false).
Proof.
  split; [apply replace_newline_clean|]. split.
  - induction s as [|c s IH]; [reflexivity|]. cbn [replace_newline has_newline].
    destruct (Ascii.eqb c _); [discriminate|]. cbn. intros Hs. by rewrite IH.
  - intros comment f. unfold comment_text_block. cbn zeta.
    destruct (str_truthy _); [|discriminate]. intros [= <-].
    eexists. split; [reflexivity | apply replace_newline_clean].
Qed.

(** The content of a line item starts with its checkbox marker, carrying
    the derived status, and its heading, ends with the small spacer, and
    holds in between only comment labels, comment texts and media
    references, at most three for each comment of the line item. *)
Theorem build_line_item_content_shape (item_idx : nat) (line_item : LineItem) :
  exists (heading : string) (body : list Flowable),
    build_line_item_content item_idx line_item
    = CheckboxMarker (get_inspection_status line_item)
      :: Paragraph heading LineItemHeader
      :: body ++ [Spacer (Pt 1) (Inch100 10)]
    /\ Forall (fun f => is_comment_block f = true) body
    /\ (length body
        <= 3 * length (default [] (item_comments line_item)))%nat.
Proof.
  rewrite build_line_item_content_blocks. unfold line_item_blocks. cbn zeta.
  eexists _, _. split; [reflexivity|].
  destruct (concat_comment_blocks
              (sorted (default [] (item_comments line_item))
                 (fun x => get_order (comment_order x)))) as [Hk Hl].
  split; [exact Hk|].
  by rewrite (Permutation_length (sorted_perm _ _)) in Hl.
Qed.

(** A comment adds no block exactly when it has no label (or an empty
    one), its text comes out empty and it has no media. *)
Theorem comment_without_blocks (comment : Comment)
  (content : list Flowable) :
  comment_body comment content = content
  <-> default "" (comment_label comment) = ""
      /\ get_comment_text comment = ""
      /\ (length (default [] (comment_photos comment))
          + length (default [] (comment_videos comment)) = 0)%nat.
Proof.
  rewrite comment_body_blocks.
  assert (Hnil : content ++ comment_blocks comment = content
                 <-> comment_blocks comment = []).
  { split; [|by intros ->; rewrite app_nil_r].
    intros H. apply (f_equal length) in H. rewrite length_app in H.
    destruct (comment_blocks comment); [reflexivity | simpl in H; lia]. }
  rewrite Hnil. unfold comment_blocks, comment_label_block,
    comment_text_block, media_reference. cbn zeta.
  destruct (default "" (comment_label comment)) as [|c l] eqn:Hl;
    destruct (get_comment_text comment) as [|c' t] eqn:Ht;
    destruct (Nat.ltb_spec 0 (length (default [] (comment_photos comment))
                                + length (default [] (comment_videos comment))));
    cbn; split; try discriminate; try (intros (? & ? & ?); discriminate);
    try (intros (? & ? & ?); lia); try done.
  intros _. repeat split. lia.
Qed.

Lemma filter_concat_imap {A} (p : Flowable -> bool)
  (g : nat -> A -> list Flowable) (h : A -> nat) (l : list A) :
  (forall i x, length (List.filter p (g i x)) = h x) ->
  length (List.filter p (concat (imap g l))) = sum_list_with h l.
Proof.
  intros Hg. revert g Hg. induction l as [|x l IH]; intros g Hg;
    [reflexivity|].
  rewrite imap_cons. cbn [concat sum_list_with].
  rewrite List.filter_app, length_app, Hg. f_equal.
  apply IH. intros i y. apply Hg.
Qed.

Lemma sum_list_with_one {A} (l : list A) :
  sum_list_with (fun _ => 1%nat) l = length l.
Proof. induction l as [|x l IH]; simpl; [reflexivity | by rewrite IH]. Qed.

Lemma filter_comment_blocks (p : Flowable -> bool) (body : list Flowable) :
  (forall f, is_comment_block f = true -> p f = false) ->
  Forall (fun f => is_comment_block f = true) body ->
  List.filter p body = [].
Proof.
  intros Hp. induction 1 as [|f body Hf _ IH]; [reflexivity|].
  cbn [List.filter]. by rewrite (Hp f Hf).
Qed.

Lemma line_item_blocks_count (p : Flowable -> bool) (n : nat)
  (item_idx : nat) (line_item : LineItem) :
  (forall f, is_comment_block f = true -> p f = false) ->
  (forall status heading,
      length (List.filter p
                [CheckboxMarker status; Paragraph heading LineItemHeader;
                 Spacer (Pt 1) (Inch100 10)]) = n) ->
  length (List.filter p (line_item_blocks item_idx line_item)) = n.
Proof.
  intros Hp Hn. unfold line_item_blocks. cbn zeta.
  rewrite !List.filter_app.
  rewrite (filter_comment_blocks p (concat _) Hp)
    by apply concat_comment_blocks.
  rewrite app_nil_l, <- List.filter_app. apply Hn.
Qed.

Lemma section_blocks_count (p : Flowable -> bool) (n_heading n_item : nat)
  (section_idx : nat) (section : Section_) :
  (forall f, is_comment_block f = true -> p f = false) ->
  (forall text, (if p (Paragraph text SectionHeader) then 1 else 0)%nat
                = n_heading) ->
  p (Spacer (Pt 1) (Inch100 20)) = false ->
  (forall status heading,
      length (List.filter p
                [CheckboxMarker status; Paragraph heading LineItemHeader;
                 Spacer (Pt 1) (Inch100 10)]) = n_item) ->
  length (List.filter p
            (section_blocks (fun blocks => blocks) section_idx section))
  = (n_heading
     + n_item * length (default [] (section_lineItems section)))%nat.
Proof.
  intros Hp Hh Hs Hn. unfold section_blocks. cbn zeta.
  rewrite !List.filter_app, !length_app.
  rewrite (filter_concat_imap p _ (fun _ => n_item))
    by (intros i x; by apply line_item_blocks_count).
  unfold section_header. cbn [List.filter]. rewrite Hs.
  rewrite <- (Hh (section_label section_idx section +:+ ". "
                  +:+ str_upper (default "" (section_name section)))).
  assert (Hsum : forall l : list LineItem,
             sum_list_with (fun _ => n_item) l = (n_item * length l)%nat).
  { induction l as [|x l IH]; simpl; [lia | rewrite IH; lia]. }
  rewrite Hsum, (Permutation_length (sorted_perm _ _)).
  destruct (p (Paragraph _ SectionHeader)); cbn [length];
    by rewrite Nat.add_0_r.
Qed.

(** A story that is built holds, groups opened, one section heading for
    each section and one checkbox marker and one line item heading for each
    line item of each section: no section and no line item is dropped or
    repeated. *)
Theorem story_block_counts (sections : list Section_)
  (story : list Flowable) :
  build_story sections = Ok story ->
  length (List.filter is_section_heading (flatten_story story))
  = length sections
  /\ length (List.filter is_checkbox_marker (flatten_story story))
     = count_line_items sections
  /\ length (List.filter is_line_item_heading (flatten_story story))
     = count_line_items sections.
Proof.
  intros [_ ->]%build_story_Ok.
  rewrite flatten_story_layout. unfold story_layout, count_line_items.
  split; [|split].
  - rewrite (filter_concat_imap _ _ (fun _ => 1%nat)).
    + by rewrite sum_list_with_one, (Permutation_length (sorted_perm _ _)).
    + intros i s.
      rewrite (section_blocks_count is_section_heading 1 0);
        [lia | by intros [? []| | |] | done | done | done].
  - rewrite (filter_concat_imap _ _
               (fun s => length (default [] (section_lineItems s)))).
    + by rewrite (sum_list_with_Permutation_proper _ _ _ (sorted_perm _ _)).
    + intros i s.
      rewrite (section_blocks_count is_checkbox_marker 0 1);
        [lia | by intros [? []| | |] | done | done | done].
  - rewrite (filter_concat_imap _ _
               (fun s => length (default [] (section_lineItems s)))).
    + by rewrite (sum_list_with_Permutation_proper _ _ _ (sorted_perm _ _)).
    + intros i s.
      rewrite (section_blocks_count is_line_item_heading 0 1);
        [lia | by intros [? []| | |] | done | done | done].
Qed.

End Blocks.

(** Two sections with three line items between them. *)
Lemma story_block_counts_witness :
  let rt := simple_runtime None in
  let item (name : string) := mkLineItem None (Some name) None None None None in
  let sections :=
    [mkSection None None (Some "roof") (Some [item "tiles"; item "gutter"]);
     mkSection None None (Some "walls") (Some [item "paint"])] in
  exists story : list Flowable,
    build_story sections = Ok story
    /\ length (List.filter is_section_heading (flatten_story story)) = 2%nat
    /\ length (List.filter is_checkbox_marker (flatten_story story)) = 3%nat
    /\ length (List.filter is_line_item_heading (flatten_story story)) = 3%nat.
Proof.
  intros rt item sections.
  eexists. split; [vm_compute; reflexivity|].
  apply (story_block_counts sections). vm_compute. reflexivity.
Defined.

Lemma replace_newline_no_newline_witness :
  let rt := simple_runtime None in
  replace_newline "no line feed here" = "no line feed here"
  /\ exists text,
       Paragraph "a<br/>b" CommentText = Paragraph text CommentText
       /\ has_newline text = false.
Proof.
  intros rt. split.
  - apply (proj1 (proj2 (@replace_newline_no_newline rt "no line feed here"))).
    reflexivity.
  - apply (proj2 (proj2 (@replace_newline_no_newline rt ""))
             (mkComment None None None
                (Some ("a" +:+ String (Ascii.ascii_of_nat 10) "b"))
                None None None None None None None)).
    reflexivity.
Defined.

(** ** Outcomes of the render entry point *)

Section Outcomes.
Context `{RT : Runtime}.





Lemma get_report_id_insert_reportId (metadata : gmap string scalar)
  (v : scalar) :
  get_report_id (<["reportId" := v]> metadata) = v.
Proof. unfold get_report_id. by rewrite lookup_insert_eq. Qed.

(** Without a metadata argument the wrapper behaves as the render entry
    point called with the root object itself as metadata, the sections
    defaulting to the empty list; with a metadata argument the fields of
    the root object are not read. *)
Theorem generate_trec_pdf_from_json_default (json_data : JsonData)
  (output_path : string) (w : World) :
  generate_trec_pdf_from_json json_data output_path None w
  = generate_trec_pdf (default [] (json_sections json_data))
      (json_fields json_data) output_path w
  /\ (forall (metadata fields : gmap string scalar),
      generate_trec_pdf_from_json
        (mkJsonData (json_sections json_data) fields) output_path
        (Some metadata) w
      = generate_trec_pdf (default [] (json_sections json_data)) metadata
          output_path w).
Proof.
  split; [|reflexivity].
  unfold generate_trec_pdf_from_json. cbn zeta.
  apply generate_trec_pdf_report_id, get_report_id_insert_reportId.
Qed.

End Outcomes.



(** ** Labels read back *)

Lemma roman_digit_le (c : Ascii.ascii) : roman_digit c <= 1000.
Proof.
  unfold roman_digit, roman_digits. cbn [List.find fst].
  repeat (destruct (String.eqb _ _); [cbn; lia|]). cbn. lia.
Qed.

Lemma roman_value_thousand (c : Ascii.ascii) (s : string) :
  roman_digit c = 1000 -> roman_value (String c s) = roman_value s + 1000.
Proof.
  intros Hc. destruct s as [|c' s']; cbn [roman_value]; rewrite Hc;
    [reflexivity|].
  pose proof (roman_digit_le c').
  destruct (Z.ltb_spec 1000 (roman_digit c')); [lia | reflexivity].
Qed.

Lemma roman_value_thousands (k : nat) (s : string) :
  roman_value (repeat_str "M" k +:+ s) = 1000 * Z.of_nat k + roman_value s.
Proof.
  induction k as [|k IH]; [cbn [repeat_str]; rewrite string_app_nil_l; lia|].
  cbn [repeat_str]. rewrite string_app_assoc.
  change ("M" +:+ (repeat_str "M" k +:+ s))
    with (String (Ascii.ascii_of_nat 77) (repeat_str "M" k +:+ s)).
  rewrite roman_value_thousand by reflexivity. rewrite IH. lia.
Qed.

Lemma roman_numeral_split (num : Z) :
  roman_numeral num
  = repeat_str "M" (Z.to_nat (num / 1000))
    +:+ roman_greedy (drop 1 (zip val syms)) (num mod 1000).
Proof. reflexivity. Qed.

Lemma roman_value_below_thousand_check :
  forallb (fun r =>
             roman_value (roman_greedy (drop 1 (zip val syms)) (Z.of_nat r))
             =? Z.of_nat r)
    (seq 0 1000) = true.
Proof. vm_compute. reflexivity. Qed.

Lemma roman_value_below_thousand (r : Z) :
  0 <= r < 1000 ->
  roman_value (roman_greedy (drop 1 (zip val syms)) r) = r.
Proof.
  intros Hr. pose proof roman_value_below_thousand_check as Hall.
  rewrite forallb_forall in Hall.
  specialize (Hall (Z.to_nat r)). rewrite Z2Nat.id in Hall by lia.
  apply Z.eqb_eq, Hall, in_seq. lia.
Qed.

Lemma roman_value_numeral (num : Z) :
  0 <= num -> roman_value (roman_numeral num) = num.
Proof.
  intros Hn. rewrite roman_numeral_split, roman_value_thousands.
  rewrite roman_value_below_thousand by (apply Z.mod_pos_bound; lia).
  rewrite Z2Nat.id by (apply Z.div_pos; lia).
  rewrite (Z.div_mod num 1000) at 3 by lia. lia.
Qed.

(** The numeral of a positive number reads back as that number under the
    subtractive reading of Roman numerals, so different numbers get
    different numerals. *)
Theorem convert_to_roman_reads_back (num : Z) :
  0 < num ->
  (exists roman_num : string,
      convert_to_roman num = Ok roman_num /\ roman_value roman_num = num)
  /\ (forall other : Z,
      0 < other -> convert_to_roman num = convert_to_roman other ->
      num = other).
Proof.
  intros Hn. split.
  - exists (roman_numeral num). split.
    + apply convert_to_roman_numeral. lia.
    + apply roman_value_numeral. lia.
  - intros other Ho. rewrite !convert_to_roman_numeral by lia.
    intros [= Heq]. apply (f_equal roman_value) in Heq.
    by rewrite !roman_value_numeral in Heq by lia.
Qed.

Lemma convert_to_roman_reads_back_witness :
  exists roman_num : string,
    convert_to_roman 1994 = Ok roman_num /\ roman_value roman_num = 1994.
Proof.
  apply (proj1 (convert_to_roman_reads_back 1994 ltac:(lia))).
Defined.

Lemma letters_value_app (s1 s2 : string) (acc : Z) :
  letters_value acc (s1 +:+ s2) = letters_value (letters_value acc s1) s2.
Proof.
  revert acc. induction s1 as [|c s1 IH]; intros acc; [reflexivity|].
  rewrite string_app_cons. cbn [letters_value]. apply IH.
Qed.

Lemma letters_value_chr (acc r : Z) :
  0 <= r < 26 -> letters_value acc (chr (65 + r)) = acc * 26 + r + 1.
Proof.
  intros Hr. unfold chr. cbn [letters_value].
  rewrite Ascii.N_ascii_embedding by lia. lia.
Qed.

Lemma all_capitals_app (s1 s2 : string) :
  all_capitals (s1 +:+ s2) <-> all_capitals s1 /\ all_capitals s2.
Proof.
  induction s1 as [|c s1 IH]; [cbn; rewrite string_app_nil_l; tauto|].
  rewrite string_app_cons. cbn [all_capitals]. rewrite IH. tauto.
Qed.

Lemma all_capitals_chr (r : Z) : 0 <= r < 26 -> all_capitals (chr (65 + r)).
Proof.
  intros Hr. unfold chr. cbn [all_capitals].
  rewrite Ascii.N_ascii_embedding by lia. lia.
Qed.

Lemma convert_to_letter_index (n : Z) :
  0 <= n ->
  letters_value 0 (convert_to_letter n) = n + 1
  /\ all_capitals (convert_to_letter n).
Proof.
  intros Hn. generalize Hn. pattern n. apply Z_lt_induction; [|exact Hn].
  clear n Hn. intros n IH Hn.
  destruct (Z_lt_dec n 26) as [Hsmall|Hlarge].
  - rewrite convert_to_letter_small by lia. split.
    + rewrite letters_value_chr by lia. lia.
    + apply all_capitals_chr. lia.
  - rewrite convert_to_letter_large by lia.
    assert (Hq : 0 <= n / 26 - 1 < n).
    { assert (1 <= n / 26) by (apply Z.div_le_lower_bound; lia).
      assert (n / 26 <= n) by (apply Z.div_le_upper_bound; lia). lia. }
    pose proof (Z.mod_pos_bound n 26 ltac:(lia)) as Hr.
    destruct (IH (n / 26 - 1) Hq) as [Hv Hc]; [lia|]. split.
    + rewrite letters_value_app, Hv, letters_value_chr by lia.
      rewrite (Z.div_mod n 26) at 3 by lia. lia.
    + apply all_capitals_app. split; [exact Hc | by apply all_capitals_chr].
Qed.

Lemma string_snoc_cases (s : string) :
  s <> "" ->
  exists (s' : string) (c : Ascii.ascii),
    s = s' +:+ String c ""
    /\ (String.length s' < String.length s)%nat.
Proof.
  induction s as [|a s IH]; [done|]. intros _.
  destruct s as [|b s].
  - exists "", a. split; [reflexivity | simpl; lia].
  - destruct IH as (s' & c & Hs & Hlen); [discriminate|].
    exists (String a s'), c. rewrite string_app_cons, <- Hs.
    split; [reflexivity | simpl in *; lia].
Qed.

Lemma letters_value_capitals (s : string) (acc : Z) :
  0 <= acc -> all_capitals s -> s <> "" -> 1 <= letters_value acc s.
Proof.
  revert acc. induction s as [|c s IH]; [done|].
  intros acc Hacc [Hc Hs] _. cbn [letters_value].
  destruct s as [|c' s']; [cbn; lia|].
  apply IH; [lia | exact Hs | discriminate].
Qed.

Lemma convert_to_letter_of_label (s : string) :
  s <> "" -> all_capitals s -> convert_to_letter (label_index s) = s.
Proof.
  remember (String.length s) as len eqn:Hlen. revert s Hlen.
  induction len as [len IH] using lt_wf_ind. intros s -> Hne Hcap.
  destruct (string_snoc_cases s Hne) as (s' & c & -> & Hlt).
  apply all_capitals_app in Hcap as [Hcap' [Hc _]].
  unfold label_index. rewrite letters_value_app. cbn [letters_value].
  set (d := Z.of_N (Ascii.N_of_ascii c) - 64) in *.
  assert (Hchr : chr (65 + (d - 1)) = String c "").
  { unfold chr, d. replace (65 + (Z.of_N (Ascii.N_of_ascii c) - 64 - 1))
      with (Z.of_N (Ascii.N_of_ascii c)) by lia.
    by rewrite N2Z.id, Ascii.ascii_N_embedding. }
  destruct (decide (s' = "")) as [->|Hs'ne].
  - cbn [letters_value]. rewrite string_app_nil_l.
    rewrite convert_to_letter_small by lia.
    replace (0 * 26 + d - 1) with (d - 1) by lia. exact Hchr.
  - rename s' into p.
    pose proof (letters_value_capitals p 0 ltac:(lia) Hcap' Hs'ne) as Hv.
    set (v := letters_value 0 p) in *.
    rewrite convert_to_letter_large by lia.
    replace ((v * 26 + d - 1) / 26 - 1) with (v - 1).
    2:{ replace (v * 26 + d - 1) with ((d - 1) + v * 26) by lia.
        rewrite Z.div_add by lia. rewrite Z.div_small by lia. lia. }
    replace ((v * 26 + d - 1) mod 26) with (d - 1).
    2:{ replace (v * 26 + d - 1) with ((d - 1) + v * 26) by lia.
        rewrite Z.mod_add by lia. rewrite Z.mod_small by lia. lia. }
    rewrite Hchr. f_equal.
    apply (IH (String.length p) Hlt p eq_refl Hs'ne Hcap').
Qed.

(** The labels of the line items are exactly the non-empty words of
    capital letters: the label of an index is such a word and reads back
    as the index, and every such word is the label of the index it reads
    as. *)
Theorem convert_to_letter_bijection :
  (forall n : Z,
      0 <= n ->
      convert_to_letter n <> "" /\ all_capitals (convert_to_letter n)
      /\ label_index (convert_to_letter n) = n)
  /\ (forall s : string,
      s <> "" -> all_capitals s ->
      0 <= label_index s /\ convert_to_letter (label_index s) = s).
Proof.
  split.
  - intros n Hn. destruct (convert_to_letter_index n Hn) as [Hv Hc].
    split; [by apply convert_to_letter_nonempty|]. split; [exact Hc|].
    unfold label_index. lia.
  - intros s Hne Hcap. split.
    + pose proof (letters_value_capitals s 0 ltac:(lia) Hcap Hne).
      unfold label_index. lia.
    + by apply convert_to_letter_of_label.
Qed.

Lemma convert_to_letter_bijection_witness :
  label_index (convert_to_letter 730) = 730
  /\ convert_to_letter (label_index "TREC") = "TREC".
Proof.
  split.
  - apply (proj1 convert_to_letter_bijection 730). lia.
  - apply (proj2 convert_to_letter_bijection "TREC"); [discriminate|].
    cbn. lia.
Defined.

(** ** server.py: pages of the placeholder text *)

Lemma page_lines_app (page1 page2 : list DrawOp) :
  page_lines (page1 ++ page2) = page_lines page1 ++ page_lines page2.
Proof. unfold page_lines. apply omap_app. Qed.

Lemma render_lines_spec (lines : list string) (k : nat) (page : list DrawOp)
  (pages : list (list DrawOp)) :
  (k < 48)%nat ->
  length (page_lines page) = k ->
  let result := render_lines lines (800 - 16 * Z.of_nat k) page pages in
  length result = (length pages + (k + length lines) / 48 + 1)%nat
  /\ snd <$> concat (page_lines <$> result)
     = (snd <$> concat (page_lines <$> pages)) ++ (snd <$> page_lines page)
       ++ (String.substring 0 90 <$> lines)
  /\ (Forall (fun pg => (length (page_lines pg) <= 48)%nat) pages ->
      Forall (fun pg => (length (page_lines pg) <= 48)%nat) result)
  /\ (Forall line_height_ok (concat (page_lines <$> pages)) ->
      Forall line_height_ok (page_lines page) ->
      Forall line_height_ok (concat (page_lines <$> result))).
Proof.
  revert k page pages.
  induction lines as [|line lines IH]; intros k page pages Hk Hpage result.
  - subst result. cbn [render_lines length].
    rewrite Nat.add_0_r, Nat.div_small by lia.
    rewrite length_app, fmap_app, concat_app, !fmap_app. cbn.
    rewrite !app_nil_r. split; [lia|]. split; [reflexivity|]. split.
    + intros Hp. apply Forall_app. split; [exact Hp|].
      constructor; [lia | constructor].
    + intros Hp Hc. by apply Forall_app.
  - subst result. cbn [render_lines]. cbn zeta.
    set (page' := page ++ [DrawString 40 (800 - 16 * Z.of_nat k)
                             (String.substring 0 90 line)]).
    assert (Hpl : page_lines page'
                  = page_lines page
                    ++ [(800 - 16 * Z.of_nat k, String.substring 0 90 line)]).
    { unfold page'. by rewrite page_lines_app. }
    assert (Hlen : length (page_lines page') = S k).
    { rewrite Hpl, length_app. cbn. lia. }
    assert (Hok : line_height_ok
                    (800 - 16 * Z.of_nat k, String.substring 0 90 line)).
    { exists k. split; [exact Hk | reflexivity]. }
    destruct (Z.ltb_spec (800 - 16 * Z.of_nat k - 16) 40) as [Hbreak|Hstay].
    + assert (k = 47%nat) as Hk47 by lia.
      destruct (IH 0%nat [] (pages ++ [page']) ltac:(lia) eq_refl)
        as (Hcount & Htexts & Hpages & Hheights).
      change (800 - 16 * Z.of_nat 0) with 800 in *. cbn zeta in *.
      split; [|split; [|split]].
      * rewrite Hcount, length_app. cbn [length plus].
        replace (k + S (length lines))%nat
          with (length lines + 1 * 48)%nat by lia.
        rewrite Nat.div_add by lia. lia.
      * rewrite Htexts, !fmap_app, concat_app, !fmap_app. cbn.
        rewrite Hpl, app_nil_r, fmap_app, <- !app_assoc. reflexivity.
      * intros Hp. apply Hpages, Forall_app. split; [exact Hp|].
        constructor; [lia | constructor].
      * intros Hp Hc. apply Hheights; [|constructor].
        rewrite fmap_app, concat_app. cbn. rewrite app_nil_r, Hpl.
        apply Forall_app. split; [exact Hp|].
        apply Forall_app. split; [exact Hc | constructor; [exact Hok | constructor]].
    + assert (S k < 48)%nat as HSk by lia.
      destruct (IH (S k) page' pages HSk Hlen)
        as (Hcount & Htexts & Hpages & Hheights). cbn zeta in *.
      replace (800 - 16 * Z.of_nat k - 16) with (800 - 16 * Z.of_nat (S k))
        by lia.
      split; [|split; [|split]].
      * rewrite Hcount. cbn [length].
        by replace (S k + length lines)%nat with (k + S (length lines))%nat
          by lia.
      * rewrite Htexts, Hpl, fmap_app, <- !app_assoc. reflexivity.
      * exact Hpages.
      * intros Hp Hc. apply Hheights; [exact Hp|]. rewrite Hpl.
        apply Forall_app. split; [exact Hc | constructor; [exact Hok | constructor]].
Qed.

(** The placeholder text is laid out 48 lines to a page: there is one more
    page than the number of full pages of lines (so an empty last page when
    the lines fill their pages exactly, and one empty page for no line at
    all), the lines appear in their order, each cut to its first 90
    characters, no page has more than 48 of them, and every line stands at
    one of the heights 800, 784, ..., 48; without the layout library the
    function raises instead. *)
Theorem render_pdf_text_pages (splitlines : string -> list string)
  (text : string) :
  (exists pages : list (list DrawOp),
      render_pdf_text true splitlines text = Rendered pages
      /\ length pages = (length (splitlines text) / 48 + 1)%nat
      /\ snd <$> concat (page_lines <$> pages)
         = String.substring 0 90 <$> splitlines text
      /\ Forall (fun pg => (length (page_lines pg) <= 48)%nat) pages
      /\ Forall (fun l => 48 <= fst l <= 800) (concat (page_lines <$> pages)))
  /\ (exists msg : string,
      render_pdf_text false splitlines text = NotImplementedError msg).
Proof.
  split; [|by eexists].
  unfold render_pdf_text. cbn [negb]. eexists. split; [reflexivity|].
  destruct (render_lines_spec (splitlines text) 0 [SetFont "Helvetica" 12] [])
    as (Hcount & Htexts & Hpages & Hheights); [lia | reflexivity|].
  change (800 - 16 * Z.of_nat 0) with 800 in *. cbn zeta in *.
  split; [exact Hcount|]. split; [exact Htexts|].
  split; [apply Hpages; constructor|].
  eapply Forall_impl; [apply Hheights; constructor|].
  intros l (k & Hk & ->). lia.
Qed.

Lemma get_inspection_status_range_witness :
  let rt := simple_runtime None in
  get_inspection_status (mkLineItem None None None (Some "n/a") None None) = "".
Proof.
  intros rt.
  apply (proj2 (@get_inspection_status_range rt
                  (mkLineItem None None None (Some "n/a") None None))).
  repeat split. discriminate.
Defined.

Lemma comment_without_blocks_witness :
  let rt := simple_runtime None in
  let comment :=
    mkComment (Some (Int 1)) (Some "") (Some (SInt 3)) (Some "") None None
      None
      (Some []) None (Some "deficient") None in
  comment_body comment [CheckboxMarker "D"] = [CheckboxMarker "D"].
Proof.
  intros rt comment.
  apply (proj2 (@comment_without_blocks rt comment [CheckboxMarker "D"])).
  repeat split.
Defined.
